(** * todo-frontend: the authenticated REST client and the task list controller

    A shallow embedding of [src/App.jsx]: the date converters
    [formatDateForInput] and [parseDateForAPI], the HTTP wrapper [apiCall]
    with [getIdToken], and the controller functions of the [App] component
    ([loadTasks], [createTask], [updateTask], [removeTask], the derived
    [visibleTasks] and the click handlers).

    The JavaScript built-ins the code relies on are modelled after ECMA-262:
    time values are integers (milliseconds since the epoch, [None] for NaN),
    the calendar functions are the specification's [Day], [DayFromYear],
    [YearFromTime], [MakeDay], ..., and [Date.parse] reads the date-time
    string format.  What the language leaves to the host (the time zone, the
    fallback date grammar, JSON text, the session provider and the remote
    server) is a parameter. *)

From Stdlib Require Import ZArith List String Ascii Bool Lia DecimalString.
Import ListNotations.

Local Open Scope string_scope.
Local Open Scope Z_scope.

(** ** Calendar arithmetic (ECMA-262, "Time Values and Time Range") *)

Module Calendar.

Definition msPerSecond : Z := 1000.
Definition msPerMinute : Z := 60000.
Definition msPerHour : Z := 3600000.
Definition msPerDay : Z := 86400000.

(** The largest magnitude of a time value: 100,000,000 days. *)
Definition maxTime : Z := 8640000000000000.

Definition Day (t : Z) : Z := t / msPerDay.
Definition TimeWithinDay (t : Z) : Z := t mod msPerDay.

Definition isLeap (y : Z) : bool :=
  ((y mod 4 =? 0) && negb (y mod 100 =? 0)) || (y mod 400 =? 0).

Definition DaysInYear (y : Z) : Z := if isLeap y then 366 else 365.

Definition DayFromYear (y : Z) : Z :=
  365 * (y - 1970) + (y - 1969) / 4 - (y - 1901) / 100 + (y - 1601) / 400.

Definition TimeFromYear (y : Z) : Z := msPerDay * DayFromYear y.

(** The year of day number [d]: the largest [y] with [DayFromYear y <= d].
    The quotient by the mean year length is off by at most one. *)
Definition YearFromDay (d : Z) : Z :=
  let y := 1970 + (400 * d) / 146097 in
  if d <? DayFromYear y then y - 1
  else if DayFromYear (y + 1) <=? d then y + 1
  else y.

Definition YearFromTime (t : Z) : Z := YearFromDay (Day t).
Definition InLeapYear (t : Z) : bool := isLeap (YearFromTime t).
Definition DayWithinYear (t : Z) : Z := Day t - DayFromYear (YearFromTime t).

(** Day within the year on which month [m] (0 = January) starts. *)
Definition monthStart (leap : bool) (m : Z) : Z :=
  let l := if leap then 1 else 0 in
  match m with
  | 0 => 0
  | 1 => 31
  | 2 => 59 + l
  | 3 => 90 + l
  | 4 => 120 + l
  | 5 => 151 + l
  | 6 => 181 + l
  | 7 => 212 + l
  | 8 => 243 + l
  | 9 => 273 + l
  | 10 => 304 + l
  | 11 => 334 + l
  | _ => 365 + l
  end.

Definition monthOfYearDay (leap : bool) (d : Z) : Z :=
  if d <? monthStart leap 1 then 0
  else if d <? monthStart leap 2 then 1
  else if d <? monthStart leap 3 then 2
  else if d <? monthStart leap 4 then 3
  else if d <? monthStart leap 5 then 4
  else if d <? monthStart leap 6 then 5
  else if d <? monthStart leap 7 then 6
  else if d <? monthStart leap 8 then 7
  else if d <? monthStart leap 9 then 8
  else if d <? monthStart leap 10 then 9
  else if d <? monthStart leap 11 then 10
  else 11.

Definition MonthFromTime (t : Z) : Z :=
  monthOfYearDay (InLeapYear t) (DayWithinYear t).

Definition DateFromTime (t : Z) : Z :=
  DayWithinYear t - monthStart (InLeapYear t) (MonthFromTime t) + 1.

Definition DaysInMonth (y m : Z) : Z :=
  monthStart (isLeap y) (m + 1) - monthStart (isLeap y) m.

Definition HourFromTime (t : Z) : Z := (t / msPerHour) mod 24.
Definition MinFromTime (t : Z) : Z := (t / msPerMinute) mod 60.
Definition SecFromTime (t : Z) : Z := (t / msPerSecond) mod 60.
Definition msFromTime (t : Z) : Z := t mod msPerSecond.

Definition MakeTime (hour min sec ms : Z) : Z :=
  hour * msPerHour + min * msPerMinute + sec * msPerSecond + ms.

(** [MakeDay year month date]: month overflow is carried into the year. *)
Definition MakeDay (year month date : Z) : Z :=
  let ym := year + month / 12 in
  let mn := month mod 12 in
  DayFromYear ym + monthStart (isLeap ym) mn + date - 1.

Definition MakeDate (day time : Z) : Z := day * msPerDay + time.

(** [TimeClip]: a time value out of range is NaN. *)
Definition TimeClip (t : Z) : option Z :=
  if Z.abs t <=? maxTime then Some t else None.

End Calendar.

(** ** Decimal fields of date strings *)

Module Text.

Definition digitChar (n : Z) : ascii :=
  match n with
  | 0 => "0" | 1 => "1" | 2 => "2" | 3 => "3" | 4 => "4"
  | 5 => "5" | 6 => "6" | 7 => "7" | 8 => "8" | _ => "9"
  end%char.

(** The value of a decimal digit: the characters 48 to 57. *)
Definition digitVal (c : ascii) : option Z :=
  let code := Z.of_N (N_of_ascii c) in
  if (48 <=? code) && (code <=? 57) then Some (code - 48) else None.

(** [n] written with exactly [width] decimal digits, zero-padded. *)
Fixpoint padded (width : nat) (n : Z) : string :=
  match width with
  | O => ""
  | S w => String (digitChar (n / 10 ^ Z.of_nat w)) (padded w (n mod 10 ^ Z.of_nat w))
  end.

(** Reads exactly [width] decimal digits. *)
Fixpoint readDigits (width : nat) (acc : Z) (s : string) : option (Z * string) :=
  match width with
  | O => Some (acc, s)
  | S w =>
      match s with
      | String c r =>
          match digitVal c with
          | Some v => readDigits w (10 * acc + v) r
          | None => None
          end
      | EmptyString => None
      end
  end.

Definition startsWith (c : ascii) (s : string) : bool :=
  match s with
  | String c' _ => Ascii.eqb c' c
  | EmptyString => false
  end.

Definition tail (s : string) : string :=
  match s with
  | String _ r => r
  | EmptyString => ""
  end.

(** Decimal notation of an integer, as [Number.prototype.toString] writes
    integers below 10^21. *)
Definition ofZ (n : Z) : string := NilZero.string_of_int (Z.to_int n).

End Text.

(** ** JavaScript values, errors and completions *)

Module JS.

#[warnings="-register-all"]
Inductive value : Type :=
| VUndefined
| VNull
| VBool (b : bool)
| VNum (n : Z)
| VStr (s : string)
| VArr (items : list value)
| VObj (props : list (string * value)).

(** An object: its own properties in the order the language enumerates
    them (for keys that are not array indices, the order of insertion).
    Numbers are modelled by their integer values (status codes, epoch
    milliseconds). *)
Definition obj : Type := list (string * value).

Inductive errorKind := Error | TypeError | RangeError | SyntaxError.

(** A thrown error object; [status] and [body] are the properties [apiCall]
    attaches, absent ([None]) on every other error. *)
Record exn := mkExn {
  name : errorKind;
  message : string;
  status : option Z;
  body : option string
}.

Definition newError (k : errorKind) (msg : string) : exn := mkExn k msg None None.

Inductive completion (A : Type) : Type :=
| Return (a : A)
| Throw (e : exn).
Arguments Return {A} a.
Arguments Throw {A} e.

Definition bind {A B} (m : completion A) (k : A -> completion B) : completion B :=
  match m with
  | Return a => k a
  | Throw e => Throw e
  end.

(** ToBoolean *)
Definition truthy (v : value) : bool :=
  match v with
  | VUndefined | VNull => false
  | VBool b => b
  | VNum n => negb (n =? 0)
  | VStr s => negb (String.eqb s "")
  | VArr _ | VObj _ => true
  end.

(** [a || b] *)
Definition or_else (a b : value) : value := if truthy a then a else b.

Fixpoint get (k : string) (o : obj) : value :=
  match o with
  | [] => VUndefined
  | (k', v) :: r => if String.eqb k' k then v else get k r
  end.

(** Writing a property keeps the position of an existing key and appends a
    new one, as an object literal [{...o, k: v}] orders its keys. *)
Fixpoint set (k : string) (v : value) (o : obj) : obj :=
  match o with
  | [] => [(k, v)]
  | (k', v') :: r => if String.eqb k' k then (k', v) :: r else (k', v') :: set k v r
  end.

Fixpoint indexed (i : Z) (l : list value) : obj :=
  match l with
  | [] => []
  | v :: r => (Text.ofZ i, v) :: indexed (i + 1) r
  end.

Fixpoint chars (s : string) : list value :=
  match s with
  | EmptyString => []
  | String c r => VStr (String c "") :: chars r
  end.

(** The own enumerable properties an object spread [{...v}] copies. *)
Definition ownProps (v : value) : obj :=
  match v with
  | VObj o => o
  | VArr l => indexed 0 l
  | VStr s => indexed 0 (chars s)
  | _ => []
  end.

(** [v.k]: reading a property of [null] or [undefined] throws. *)
Definition member (v : value) (k : string) : completion value :=
  match v with
  | VUndefined | VNull => Throw (newError TypeError "Cannot read properties of null or undefined")
  | VObj o => Return (get k o)
  | VArr l =>
      if String.eqb k "length" then Return (VNum (Z.of_nat (List.length l)))
      else Return (get k (indexed 0 l))
  | VStr s =>
      if String.eqb k "length" then Return (VNum (Z.of_nat (String.length s)))
      else Return (get k (indexed 0 (chars s)))
  | VBool _ | VNum _ => Return VUndefined
  end.

Fixpoint join (sep : string) (l : list string) : string :=
  match l with
  | [] => ""
  | [s] => s
  | s :: r => s ++ sep ++ join sep r
  end.

(** ToString, as template literals and the Date constructor apply it. *)
Fixpoint ToString (v : value) : string :=
  match v with
  | VUndefined => "undefined"
  | VNull => "null"
  | VBool true => "true"
  | VBool false => "false"
  | VNum n => Text.ofZ n
  | VStr s => s
  | VArr l =>
      join "," (List.map (fun x => match x with
                                   | VUndefined | VNull => ""
                                   | _ => ToString x
                                   end) l)
  | VObj _ => "[object Object]"
  end.

(** [a === b] against a string *)
Definition strictEqStr (v : value) (s : string) : bool :=
  match v with
  | VStr s' => String.eqb s' s
  | _ => false
  end.

End JS.
Import JS.

Declare Scope js_scope.
Delimit Scope js_scope with js.
Notation "'let*' x := m 'in' k" := (JS.bind m (fun x => k))
  (at level 10, x name, m at level 100, k at level 200) : js_scope.
Local Open Scope js_scope.

(** ** The host: what ECMA-262 leaves to the implementation *)

Class Host := {
  (** [JSON.parse]; a text that is not JSON throws (a SyntaxError). *)
  JSON_parse : string -> completion value;
  (** [JSON.stringify] *)
  JSON_stringify : value -> string;
  (** Local time zone: the whole minutes to add to UTC at time value [t],
      where [t] is read as UTC ([true]) or as local time ([false]); a local
      time that a clock change skips or repeats is read with the offset
      before the change.  Offsets that are not whole minutes (the local mean
      time of old dates) are outside the model. *)
  zoneOffset : Z -> bool -> Z;
  (** Zone offsets stay below a day. *)
  zoneOffset_bound : forall t b, Z.abs (zoneOffset t b) < 1440;
  (** What [Date.parse] makes of a string outside the date-time string format. *)
  legacyDateParse : string -> option Z
}.

(** ** Date objects (ECMA-262, "Date Objects") *)

Module DateObj.
Import Calendar Text.

(** *** [Date.prototype.toISOString]: [YYYY-MM-DDTHH:mm:ss.sssZ], the year
    expanded to a sign and six digits outside 0..9999 *)

Definition yearString (y : Z) : string :=
  if (0 <=? y) && (y <=? 9999) then padded 4 y
  else if y <? 0 then String "-" (padded 6 (- y))
  else String "+" (padded 6 y).

Definition isoString (t : Z) : string :=
  yearString (YearFromTime t) ++ "-" ++ padded 2 (MonthFromTime t + 1) ++ "-" ++
  padded 2 (DateFromTime t) ++ "T" ++ padded 2 (HourFromTime t) ++ ":" ++
  padded 2 (MinFromTime t) ++ ":" ++ padded 2 (SecFromTime t) ++ "." ++
  padded 3 (msFromTime t) ++ "Z".

(** *** The date-time string format, read *)

Record isoFields := mkIso {
  isoYear : Z;
  isoMonth : Z;            (* 1..12 *)
  isoDay : Z;
  isoHour : Z;
  isoMinute : Z;
  isoSecond : Z;
  isoMs : Z;
  isoHasTime : bool;       (* a date-time form, not a date-only form *)
  isoOffset : option Z     (* minutes east of UTC; [None] when absent *)
}.

Notation "'let?' x := m 'in' k" :=
  (match m with Some x => k | None => None end)
  (at level 10, x pattern, m at level 100, k at level 200).

Definition readYear (s : string) : option (Z * string) :=
  match s with
  | String c r =>
      if Ascii.eqb c "+" then readDigits 6 0 r
      else if Ascii.eqb c "-" then
        let? (y, r') := readDigits 6 0 r in
        if y =? 0 then None else Some (- y, r')
      else readDigits 4 0 s
  | EmptyString => None
  end.

(** An optional field introduced by [sep]: [w] digits, [dflt] when absent. *)
Definition readOptional (sep : ascii) (w : nat) (dflt : Z) (s : string)
  : option (Z * string) :=
  if startsWith sep s then readDigits w 0 (tail s) else Some (dflt, s).

(** [Z] or [+HH:mm] or [-HH:mm] (hours to 23, minutes to 59), or nothing. *)
Definition readOffset (s : string) : option (option Z * string) :=
  match s with
  | String c r =>
      if Ascii.eqb c "Z" then Some (Some 0, r)
      else if Ascii.eqb c "+" || Ascii.eqb c "-" then
        let? (h, r1) := readDigits 2 0 r in
        if startsWith ":" r1 then
          let? (m, r2) := readDigits 2 0 (tail r1) in
          let off := 60 * h + m in
          if (h <=? 23) && (m <=? 59)
          then Some (Some (if Ascii.eqb c "-" then - off else off), r2)
          else None
        else None
      else Some (None, s)
  | EmptyString => Some (None, s)
  end.

(** [None]: the string is outside the format. *)
Definition readIso (s : string) : option isoFields :=
  let? (y, r) := readYear s in
  let hasMonth := startsWith "-" r in
  let? (mo, r) := readOptional "-" 2 1 r in
  let? (d, r) := (if hasMonth then readOptional "-" 2 1 r else Some (1, r)) in
  if startsWith "T" r then
    let? (h, r) := readDigits 2 0 (tail r) in
    if startsWith ":" r then
      let? (mi, r) := readDigits 2 0 (tail r) in
      let hasSec := startsWith ":" r in
      let? (sec, r) := readOptional ":" 2 0 r in
      let? (ms, r) := (if hasSec then readOptional "." 3 0 r else Some (0, r)) in
      let? (off, r) := readOffset r in
      match r with
      | EmptyString => Some (mkIso y mo d h mi sec ms true off)
      | _ => None
      end
    else None
  else
    match r with
    | EmptyString => Some (mkIso y mo d 0 0 0 0 false None)
    | _ => None
    end.

(** Element values within bounds, as ECMA-262 asks ("illegal element values"
    give NaN): a day of the month that exists, hour 24 only as the end of
    the day. *)
Definition legalFields (f : isoFields) : bool :=
  (1 <=? isoMonth f) && (isoMonth f <=? 12) &&
  (1 <=? isoDay f) && (isoDay f <=? DaysInMonth (isoYear f) (isoMonth f - 1)) &&
  (isoHour f <=? 24) && (isoMinute f <=? 59) && (isoSecond f <=? 59) &&
  ((isoHour f <? 24) ||
   ((isoMinute f =? 0) && (isoSecond f =? 0) && (isoMs f =? 0))).

(** The time value the fields denote on the clock they are written for. *)
Definition wallTime (f : isoFields) : Z :=
  MakeDate (MakeDay (isoYear f) (isoMonth f - 1) (isoDay f))
           (MakeTime (isoHour f) (isoMinute f) (isoSecond f) (isoMs f)).

Section WithHost.
Context {host : Host}.

Definition LocalTZA (t : Z) (isUTC : bool) : Z := zoneOffset t isUTC * msPerMinute.
Definition LocalTime (t : Z) : Z := t + LocalTZA t true.
Definition UTC (t : Z) : Z := t - LocalTZA t false.

(** The time value of legal fields: a form without offset is UTC when
    date-only and local time when it has a time. *)
Definition fieldsTime (f : isoFields) : option Z :=
  let tv := wallTime f in
  match isoOffset f with
  | Some off => TimeClip (tv - off * msPerMinute)
  | None => if isoHasTime f then TimeClip (UTC tv) else TimeClip tv
  end.

(** [Date.parse]; [None] is NaN. *)
Definition Date_parse (s : string) : option Z :=
  match readIso s with
  | Some f => if legalFields f then fieldsTime f else None
  | None =>
      match legacyDateParse s with
      | Some t => TimeClip t
      | None => None
      end
  end.

(** A Date object is its time value. *)
Definition Date : Type := option Z.

(** [new Date(v)] *)
Definition newDate (v : value) : Date :=
  match v with
  | VStr s => Date_parse s
  | VUndefined => None
  | VNull => TimeClip 0
  | VBool b => TimeClip (if b then 1 else 0)
  | VNum n => TimeClip n
  | VArr _ | VObj _ => Date_parse (ToString v)
  end.

Definition getTimezoneOffset (t : Z) : Z := (t - LocalTime t) / msPerMinute.

Definition toISOString (d : Date) : completion string :=
  match d with
  | Some t => Return (isoString t)
  | None => Throw (newError RangeError "Invalid time value")
  end.

End WithHost.

End DateObj.

(** ** The world outside: the session provider and the remote API *)

Module Net.

Record Request := mkRequest {
  url : string;
  method : string;
  authorization : string;      (* the Authorization header *)
  contentType : string;        (* the Content-Type header *)
  payload : option string      (* the request body; [None] for [null] *)
}.

Record Response := mkResponse {
  status : Z;
  statusText : string;
  text : string                (* the body, as [res.text()] reads it *)
}.

(** [res.ok]: the status is in the range 200..299. *)
Definition ok (r : Response) : bool := (200 <=? status r) && (status r <=? 299).

(** A request that went out, with what [fetch] settled to (it rejects when
    the network fails). *)
Record Exchange := mkExchange {
  request : Request;
  outcome : completion Response
}.

(** The id token of a session: a string, or an object with [toString()]. *)
Inductive IdToken :=
| TokenString (s : string)
| TokenObject (toString : string).

Record AuthTokens := mkTokens { idToken : option IdToken }.
Record AuthSession := mkSession { tokens : option AuthTokens }.

(** [fetchAuthSession] settles to [session]; the remote end answers a request
    as a function of the exchanges before it; [log] lists the requests issued
    so far, oldest first. *)
Record World := mkWorld {
  session : completion (option AuthSession);
  server : list Exchange -> Request -> completion Response;
  log : list Exchange
}.

(** An asynchronous call that may throw and may talk to the world. *)
Definition Api (A : Type) : Type := World -> completion A * World.

Definition ret {A} (a : A) : Api A := fun w => (Return a, w).
Definition throw {A} (e : exn) : Api A := fun w => (Throw e, w).
Definition andThen {A B} (m : Api A) (k : A -> Api B) : Api B :=
  fun w => match m w with
           | (Return a, w') => k a w'
           | (Throw e, w') => (Throw e, w')
           end.
Definition lift {A} (c : completion A) : Api A := fun w => (c, w).

Definition fetchAuthSession : Api (option AuthSession) := fun w => (session w, w).

(** [fetch(url, init)]: the request goes out and is logged. *)
Definition fetch (req : Request) : Api Response :=
  fun w =>
    let out := server w (log w) req in
    (out, mkWorld (session w) (server w) (log w ++ [mkExchange req out])).

End Net.
Import Net.

Notation "'await' x := m 'in' k" := (Net.andThen m (fun x => k))
  (at level 10, x name, m at level 100, k at level 200) : js_scope.

(** ** [src/App.jsx] *)

Module App.
Import Calendar Text DateObj.

Definition API_URL : string :=
  "https://7x7l9qzd45.execute-api.eu-central-1.amazonaws.com/prod".

Definition noIdTokenMessage : string :=
  "No id token available. Make sure the user is signed in.".

(** [session?.tokens?.idToken] *)
Definition sessionIdToken (s : option AuthSession) : option IdToken :=
  match s with
  | Some s =>
      match tokens s with
      | Some t => idToken t
      | None => None
      end
  | None => None
  end.

(** [!idToken] *)
Definition lacksToken (t : option IdToken) : bool :=
  match t with
  | None => true
  | Some (TokenString s) => String.eqb s ""
  | Some (TokenObject _) => false
  end.

Definition getIdToken : Api string :=
  await session := fetchAuthSession in
  let idToken := sessionIdToken session in
  if lacksToken idToken then throw (newError Error noIdTokenMessage)
  else
    match idToken with
    | Some (TokenString s) => ret s
    | Some (TokenObject s) => ret s
    | None => ret ""
    end.

Section WithHost.
Context {host : Host}.

Definition apiCall (path method : string) (body : value) : Api value :=
  await token := getIdToken in
  await res := fetch (mkRequest (API_URL ++ path) method token "application/json"
                        (if truthy body then Some (JSON_stringify body) else None)) in
  if negb (ok res) then
    let errText :=
      match JSON_parse (text res) with
      | Return json => JSON_stringify json
      | Throw _ => Text.ofZ (Net.status res) ++ " " ++ statusText res
      end in
    throw (mkExn Error "API error" (Some (Net.status res)) (Some errText))
  else
    let text := text res in
    if truthy (VStr text) then lift (JSON_parse text) else ret VNull.

Definition emptyTask : obj :=
  [("taskId", VNull); ("title", VStr ""); ("description", VStr "");
   ("status", VStr "Pending"); ("deadline", VStr "")].

(** Format backend timestamp for datetime-local input *)
Definition formatDateForInput (timestamp : value) : completion string :=
  if negb (truthy timestamp) then Return ""
  else
    let date := newDate timestamp in
    match date with
    | None => Return ""
    | Some time =>
        let offset := getTimezoneOffset time in
        let local := TimeClip (time - offset * 60 * 1000) in
        let* iso := toISOString local in
        Return (substring 0 16 iso)
    end.

(** Parse datetime-local input to ISO string *)
Definition parseDateForAPI (localDate : value) : completion value :=
  if negb (truthy localDate) then Return VNull
  else
    let date := newDate localDate in
    match date with
    | None => Return VNull
    | Some _ =>
        let* iso := toISOString date in
        Return (VStr iso)
    end.

(** *** The component state *)

Record AppState := mkState {
  tasks : list obj;
  loading : bool;
  editing : value;
  form : obj;
  filter : string;
  error : option string
}.

Definition initialState : AppState :=
  mkState [] false VNull emptyTask "Pending" None.

(** The component with its surroundings: [pending] lists the states that were
    on screen while an API call was awaited, oldest first. *)
Record Ctl := mkCtl {
  state : AppState;
  world : World;
  pending : list AppState
}.

Definition update (f : AppState -> AppState) (c : Ctl) : Ctl :=
  mkCtl (f (state c)) (world c) (pending c).

Definition setTasks (v : list obj) : Ctl -> Ctl :=
  update (fun s => mkState v (loading s) (editing s) (form s) (filter s) (error s)).
Definition setLoading (v : bool) : Ctl -> Ctl :=
  update (fun s => mkState (tasks s) v (editing s) (form s) (filter s) (error s)).
Definition setEditing (v : value) : Ctl -> Ctl :=
  update (fun s => mkState (tasks s) (loading s) v (form s) (filter s) (error s)).
Definition setForm (v : obj) : Ctl -> Ctl :=
  update (fun s => mkState (tasks s) (loading s) (editing s) v (filter s) (error s)).
Definition setFilter (v : string) : Ctl -> Ctl :=
  update (fun s => mkState (tasks s) (loading s) (editing s) (form s) v (error s)).
Definition setError (v : option string) : Ctl -> Ctl :=
  update (fun s => mkState (tasks s) (loading s) (editing s) (form s) (filter s) v).

(** [await m] inside a controller function: the current state stays on
    screen while [m] runs against the world. *)
Definition awaiting {A} (m : Api A) (c : Ctl) : completion A * Ctl :=
  let (r, w) := m (world c) in
  (r, mkCtl (state c) w (pending c ++ [state c])).

(** [err.body ?? err.message] *)
Definition shown (err : exn) : string :=
  match JS.body err with
  | Some b => b
  | None => message err
  end.

(** The callback of [items.map] in [loadTasks]. *)
Definition normalizeItem (item : value) : completion obj :=
  let* d := member item "deadline" in
  let* deadline :=
    (if truthy d then let* iso := toISOString (newDate d) in Return (VStr iso)
     else Return VNull) in
  Return (JS.set "deadline" deadline (ownProps item)).

Fixpoint mapItems (items : list value) : completion (list obj) :=
  match items with
  | [] => Return []
  | item :: rest =>
      let* o := normalizeItem item in
      let* os := mapItems rest in
      Return (o :: os)
  end.

Definition normalizeItems (items : value) : completion (list obj) :=
  match items with
  | VArr l => mapItems l
  | _ => Return []
  end.

Definition loadTasks (c : Ctl) : Ctl :=
  let c := setLoading true c in
  let c := setError None c in
  let (items, c) := awaiting (apiCall "/tasks" "GET" VNull) c in
  let c :=
    match (let* items := items in normalizeItems items) with
    | Return normalizedItems => setTasks normalizedItems c
    | Throw err => setError (Some (shown err)) c
    end in
  setLoading false c.

Definition createTask (c : Ctl) : Ctl :=
  let form := form (state c) in
  let c := setError None c in
  match parseDateForAPI (get "deadline" form) with
  | Throw err => setError (Some (shown err)) c
  | Return deadline =>
      let payload :=
        VObj [("title", get "title" form);
              ("description", or_else (get "description" form) (VStr ""));
              ("deadline", or_else deadline VNull)] in
      let (r, c) := awaiting (apiCall "/tasks" "POST" payload) c in
      match r with
      | Throw err => setError (Some (shown err)) c
      | Return _ => loadTasks (setForm emptyTask c)
      end
  end.

(** The body [updateTask] sends for [patch]. *)
Definition updateBody (taskId : value) (patch : obj) (deadline : value) : value :=
  VObj [("taskId", taskId);
        ("title", get "title" patch);
        ("description", or_else (get "description" patch) (VStr ""));
        ("deadline", or_else deadline VNull);
        ("status", or_else (get "status" patch) (VStr "Pending"))].

Definition updateTask (taskId : value) (patch : obj) (c : Ctl) : Ctl :=
  let c := setError None c in
  match parseDateForAPI (get "deadline" patch) with
  | Throw err => setError (Some (shown err)) c
  | Return deadline =>
      let body := updateBody taskId patch deadline in
      let (r, c) := awaiting (apiCall ("/tasks/" ++ ToString taskId) "PUT" body) c in
      match r with
      | Throw err => setError (Some (shown err)) c
      | Return _ => loadTasks (setForm emptyTask (setEditing VNull c))
      end
  end.

Definition removeTask (taskId : value) (c : Ctl) : Ctl :=
  let c := setError None c in
  let (r, c) := awaiting (apiCall ("/tasks/" ++ ToString taskId) "DELETE" VNull) c in
  match r with
  | Throw err => setError (Some (shown err)) c
  | Return _ => loadTasks c
  end.

Definition visibleTasks (filter : string) (tasks : list obj) : list obj :=
  if String.eqb filter "All" then tasks
  else List.filter
         (fun t => strictEqStr (or_else (get "status" t) (VStr "Pending")) filter)
         tasks.

(** *** Event handlers of the rendered page *)

(** The patch of the Complete / Uncomplete button: [{...t, status: ...}]. *)
Definition togglePatch (t : obj) : obj :=
  JS.set "status"
    (VStr (if strictEqStr (get "status" t) "Completed" then "Pending" else "Completed"))
    t.

Definition onToggle (t : obj) : Ctl -> Ctl :=
  updateTask (get "taskId" t) (togglePatch t).

(** The Edit button.  An exception of [formatDateForInput] escapes the
    handler after [setEditing]: the form is then left as it is. *)
Definition onEdit (t : obj) (c : Ctl) : Ctl :=
  let c := setEditing (get "taskId" t) c in
  match (if truthy (get "deadline" t) then formatDateForInput (get "deadline" t)
         else Return "") with
  | Return deadline =>
      setForm [("taskId", get "taskId" t);
               ("title", or_else (get "title" t) (VStr ""));
               ("description", or_else (get "description" t) (VStr ""));
               ("status", or_else (get "status" t) (VStr "Pending"));
               ("deadline", VStr deadline)] c
  | Throw _ => c
  end.

Definition onCancel (c : Ctl) : Ctl := setForm emptyTask (setEditing VNull c).

(** The form's [onSubmit]. *)
Definition onSubmit (c : Ctl) : Ctl :=
  if truthy (editing (state c)) then updateTask (editing (state c)) (form (state c)) c
  else createTask c.

(** An input's [onChange]: [setForm({...form, field: e.target.value})]. *)
Definition onInput (field text : string) (c : Ctl) : Ctl :=
  setForm (JS.set field (VStr text) (form (state c))) c.

(** The Delete button; [confirmed] is the answer to [window.confirm]. *)
Definition onDelete (t : obj) (confirmed : bool) (c : Ctl) : Ctl :=
  if confirmed then removeTask (get "taskId" t) c else c.

(** What can happen to the mounted component. *)
Inductive action :=
| Mount                                   (* the effect that runs once *)
| Refresh
| ChangeFilter (f : string)
| Input (field text : string)
| Submit
| Cancel
| Toggle (t : obj)
| Edit (t : obj)
| Delete (t : obj) (confirmed : bool).

Definition step (a : action) : Ctl -> Ctl :=
  match a with
  | Mount | Refresh => loadTasks
  | ChangeFilter f => setFilter f
  | Input field text => onInput field text
  | Submit => onSubmit
  | Cancel => onCancel
  | Toggle t => onToggle t
  | Edit t => onEdit t
  | Delete t confirmed => onDelete t confirmed
  end.

Definition run (l : list action) (c : Ctl) : Ctl := fold_left (fun c a => step a c) l c.

(** The component as first rendered in world [w]. *)
Definition mounted (w : World) : Ctl := mkCtl initialState w [].

End WithHost.

End App.

(** ** The vocabulary of the specification *)

(** *** The shapes of date strings *)

Module Forms.
Import Calendar Text DateObj.

(** The full form that [toISOString] writes. *)
Definition fullForm (y mo d h mi s ms : Z) : string :=
  yearString y ++ "-" ++ padded 2 mo ++ "-" ++ padded 2 d ++ "T" ++
  padded 2 h ++ ":" ++ padded 2 mi ++ ":" ++ padded 2 s ++ "." ++ padded 3 ms ++ "Z".

(** The form of a [datetime-local] input: [YYYY-MM-DDTHH:mm]. *)
Definition minuteForm (y mo d h mi : Z) : string :=
  padded 4 y ++ "-" ++ padded 2 mo ++ "-" ++ padded 2 d ++ "T" ++
  padded 2 h ++ ":" ++ padded 2 mi.

(** The value of a [datetime-local] input: [YYYY-MM-DDTHH:mm] and nothing else. *)
Definition readMinuteForm (s : string) : option isoFields :=
  let? (y, r) := readDigits 4 0 s in
  if negb (startsWith "-" r) then None else
  let? (mo, r) := readDigits 2 0 (tail r) in
  if negb (startsWith "-" r) then None else
  let? (d, r) := readDigits 2 0 (tail r) in
  if negb (startsWith "T" r) then None else
  let? (h, r) := readDigits 2 0 (tail r) in
  if negb (startsWith ":" r) then None else
  let? (mi, r) := readDigits 2 0 (tail r) in
  match r with
  | EmptyString => Some (mkIso y mo d h mi 0 0 true None)
  | _ => None
  end.

(** A day of the calendar and a time of the 24-hour clock. *)
Definition validMinute (f : isoFields) : bool :=
  (1 <=? isoMonth f) && (isoMonth f <=? 12) &&
  (1 <=? isoDay f) && (isoDay f <=? DaysInMonth (isoYear f) (isoMonth f - 1)) &&
  (isoHour f <=? 23) && (isoMinute f <=? 59).

(** [s] is a valid local datetime of minute precision. *)
Definition validLocal (s : string) : bool :=
  match readMinuteForm s with
  | Some f => validMinute f
  | None => false
  end.

End Forms.

(** *** What the claims speak of: requests, outcomes, the mirrored list *)

Module Contract.
Import Calendar Text DateObj App.

Section WithHost.
Context {host : Host}.

(** The request [apiCall] builds once it holds a token. *)
Definition requestOf (path method : string) (body : value) (token : string) : Request :=
  mkRequest (API_URL ++ path) method token "application/json"
    (if truthy body then Some (JSON_stringify body) else None).

(** What [apiCall] makes of the outcome of [fetch]. *)
Definition settle (out : completion Response) : completion value :=
  match out with
  | Throw e => Throw e
  | Return res =>
      if ok res then
        if String.eqb (text res) "" then Return VNull else JSON_parse (text res)
      else
        Throw (mkExn Error "API error" (Some (Net.status res))
                 (Some match JSON_parse (text res) with
                       | Return json => JSON_stringify json
                       | Throw _ => Text.ofZ (Net.status res) ++ " " ++ statusText res
                       end))
  end.

(** The world after [req] went out. *)
Definition sent (w : World) (req : Request) : World :=
  mkWorld (session w) (server w) (log w ++ [mkExchange req (server w (log w) req)]).

(** The token the session provider yields in [w], or the failure. *)
Definition token (w : World) : completion string := fst (getIdToken w).

(** The outcome of the [try] block of [loadTasks] in world [w]. *)
Definition listed (w : World) : completion (list obj) :=
  let* items := fst (apiCall "/tasks" "GET" VNull w) in normalizeItems items.

(** A task as list normalization leaves it: the deadline is [null] or the
    ISO string of a time value in range. *)
Definition normalizedTask (t : obj) : Prop :=
  get "deadline" t = VNull \/
  exists tv, Z.abs tv <= maxTime /\ get "deadline" t = VStr (isoString tv).

(** What a logged exchange contributes to the collection: the normalized
    list when it is a list fetch that succeeded. *)
Definition listResult (x : Exchange) : option (list obj) :=
  if String.eqb (method (request x)) "GET"
     && String.eqb (url (request x)) (API_URL ++ "/tasks")
  then
    match (let* items := settle (outcome x) in normalizeItems items) with
    | Return l => Some l
    | Throw _ => None
    end
  else None.

(** The result of the last successful list fetch of a log; empty before the
    first one. *)
Definition lastListed (l : list Exchange) : list obj :=
  fold_left (fun acc x => match listResult x with Some r => r | None => acc end) l [].

Definition mirrors (c : Ctl) : Prop := tasks (state c) = lastListed (log (world c)).

(** A state of the component some sequence of events leads to, from the
    first render in a world where nothing has been sent yet. *)
Definition reachable (c : Ctl) : Prop :=
  exists w l, log w = [] /\ c = run l (mounted w).

End WithHost.

(** The status the filter compares: [t.status || "Pending"]. *)
Definition effectiveStatus (t : obj) : value := or_else (get "status" t) (VStr "Pending").

(** [V] keeps exactly the elements of [T] that satisfy [P], in their order. *)
Inductive Projection (P : obj -> Prop) : list obj -> list obj -> Prop :=
| proj_nil : Projection P [] []
| proj_keep t T V : P t -> Projection P T V -> Projection P (t :: T) (t :: V)
| proj_drop t T V : ~ P t -> Projection P T V -> Projection P (t :: T) V.

End Contract.

(** ** Sample hosts and worlds *)

Module Samples.
Import Calendar Text DateObj App.

(** *** A small JSON codec: integers, strings without escapes, arrays, objects *)

Definition quote : string := String "034" "".

Fixpoint stringify (v : value) : string :=
  match v with
  | VUndefined | VNull => "null"
  | VBool true => "true"
  | VBool false => "false"
  | VNum n => Text.ofZ n
  | VStr s => quote ++ s ++ quote
  | VArr l => "[" ++ join "," (List.map stringify l) ++ "]"
  | VObj o =>
      "{" ++ join ","
        ((fix props (o : obj) : list string :=
            match o with
            | [] => []
            | (_, VUndefined) :: r => props r
            | (k, v) :: r => (quote ++ k ++ quote ++ ":" ++ stringify v) :: props r
            end) o) ++ "}"
  end.

Fixpoint skipBlank (s : string) : string :=
  match s with
  | String c r => if Ascii.eqb c " " || Ascii.eqb c "010" then skipBlank r else s
  | EmptyString => s
  end.

Fixpoint readQuoted (s acc : string) : option (string * string) :=
  match s with
  | EmptyString => None
  | String c r => if Ascii.eqb c "034" then Some (acc, r) else readQuoted r (acc ++ String c "")
  end.

Fixpoint readNat (s : string) (acc : Z) (seen : bool) : option (Z * string) :=
  match s with
  | String c r =>
      match digitVal c with
      | Some v => readNat r (10 * acc + v) true
      | None => if seen then Some (acc, s) else None
      end
  | EmptyString => if seen then Some (acc, s) else None
  end.

Fixpoint dropPrefix (p s : string) : option string :=
  match p, s with
  | EmptyString, _ => Some s
  | String a p, String b s => if Ascii.eqb a b then dropPrefix p s else None
  | String _ _, EmptyString => None
  end.

Notation "'unless' x := m 'in' k 'otherwise' e" :=
  (match m with Some x => k | None => e end)
  (at level 10, x name, m at level 100, k at level 200, e at level 200).

Fixpoint readValue (fuel : nat) (s : string) : option (value * string) :=
  match fuel with
  | O => None
  | S fuel =>
      let s := skipBlank s in
      unless r := dropPrefix "null" s in Some (VNull, r) otherwise
      unless r := dropPrefix "true" s in Some (VBool true, r) otherwise
      unless r := dropPrefix "false" s in Some (VBool false, r) otherwise
      unless r := dropPrefix quote s in
        (let? (str, r) := readQuoted r "" in Some (VStr str, r)) otherwise
      unless r := dropPrefix "[" s in
        (unless r' := dropPrefix "]" (skipBlank r) in Some (VArr [], r') otherwise
         (fix items (n : nat) (s : string) (acc : list value) {struct n} :=
            match n with
            | O => None
            | S n =>
                let? (v, r) := readValue fuel s in
                let r := skipBlank r in
                unless r' := dropPrefix "," r in items n r' (acc ++ [v])%list otherwise
                unless r' := dropPrefix "]" r in Some (VArr (acc ++ [v])%list, r')
                otherwise None
            end) (String.length s) r []) otherwise
      unless r := dropPrefix "{" s in
        (unless r' := dropPrefix "}" (skipBlank r) in Some (VObj [], r') otherwise
         (fix members (n : nat) (s : string) (acc : obj) {struct n} :=
            match n with
            | O => None
            | S n =>
                unless r := dropPrefix quote (skipBlank s) in
                  (let? (k, r) := readQuoted r "" in
                   unless r := dropPrefix ":" (skipBlank r) in
                     (let? (v, r) := readValue fuel r in
                      let r := skipBlank r in
                      unless r' := dropPrefix "," r in
                        members n r' (acc ++ [(k, v)])%list otherwise
                      unless r' := dropPrefix "}" r in
                        Some (VObj (acc ++ [(k, v)])%list, r')
                      otherwise None)
                   otherwise None)
                otherwise None
            end) (String.length s) r []) otherwise
      unless r := dropPrefix "-" s in
        (let? (n, r) := readNat r 0 false in Some (VNum (- n), r)) otherwise
      let? (n, r) := readNat s 0 false in Some (VNum n, r)
  end.

Definition parse (s : string) : completion value :=
  match readValue (S (String.length s)) s with
  | Some (v, r) =>
      match skipBlank r with
      | EmptyString => Return v
      | _ => Throw (newError SyntaxError "Unexpected non-whitespace character after JSON")
      end
  | None => Throw (newError SyntaxError "Unexpected token in JSON")
  end.

(** *** Time zones *)

(** The 2024 rules of America/New_York: daylight time from 10 March 07:00 UTC
    to 3 November 06:00 UTC; a local time that is skipped or repeated is read
    with the offset before the change. *)
Definition newYork2024 (t : Z) (isUTC : bool) : Z :=
  if isUTC then
    if t <? 1710054000000 then -300 else if t <? 1730613600000 then -240 else -300
  else
    if t <? 1710039600000 then -300 else if t <? 1730599200000 then -240 else -300.

Lemma newYork2024_bound (t : Z) (b : bool) : Z.abs (newYork2024 t b) < 1440.
Proof.
  unfold newYork2024.
  repeat match goal with |- context [if ?c then _ else _] => destruct c end; lia.
Qed.

Lemma fixed_bound (minutes : Z) :
  (Z.abs minutes <? 1440) = true -> forall (t : Z) (b : bool), Z.abs minutes < 1440.
Proof. intros H _ _. apply Z.ltb_lt. exact H. Qed.

(** A host whose fallback date grammar accepts nothing. *)
Definition utcHost : Host :=
  Build_Host parse stringify (fun _ _ => 0) (fixed_bound 0 eq_refl) (fun _ => None).

(** One hour east of UTC all year. *)
Definition plusOneHost : Host :=
  Build_Host parse stringify (fun _ _ => 60) (fixed_bound 60 eq_refl) (fun _ => None).

Definition newYorkHost : Host :=
  Build_Host parse stringify newYork2024 newYork2024_bound (fun _ => None).

(** *** Sessions and servers *)

Definition signedIn (token : string) : completion (option AuthSession) :=
  Return (Some (mkSession (Some (mkTokens (Some (TokenObject token)))))).

Definition signedOut : completion (option AuthSession) :=
  Return (Some (mkSession None)).

(** A server that gives every request the same answer. *)
Definition answering (res : Response) : list Exchange -> Request -> completion Response :=
  fun _ _ => Return res.

(** A server that answers [GET] with a list and everything else with an
    empty 200. *)
Definition listing (tasksText : string) : list Exchange -> Request -> completion Response :=
  fun _ req =>
    if String.eqb (method req) "GET" then Return (mkResponse 200 "OK" tasksText)
    else Return (mkResponse 200 "OK" "").

Definition milk : obj :=
  [("taskId", VStr "1"); ("title", VStr "Buy milk"); ("description", VStr "2 litres");
   ("status", VStr "Pending"); ("deadline", VStr "2024-03-10T07:30:00.000Z")].

Definition report : obj :=
  [("taskId", VStr "2"); ("title", VStr "Send report"); ("status", VStr "Completed");
   ("deadline", VNull)].

Definition forbidden : Response :=
  mkResponse 403 "Forbidden" (stringify (VObj [("message", VStr "forbidden")])).

(** A world with a signed-in user and a server holding two tasks. *)
Definition twoTasks : World :=
  mkWorld (signedIn "id-token") (listing (stringify (VArr [VObj milk; VObj report]))) [].

(** A world whose server refuses everything. *)
Definition refusing : World := mkWorld (signedIn "id-token") (answering forbidden) [].

(** A world without a session. *)
Definition nobody : World := mkWorld signedOut (listing "[]") [].

End Samples.

(** ** More vocabulary: the shapes of requests and of fetched items *)

Module Shapes.
Import Calendar Text DateObj App Forms Contract.

(** A request as the four operations of the client issue them with token
    [tok]: the list fetch, the creation, a replacement and a deletion. *)
Definition wellFormed (tok : string) (req : Request) : Prop :=
  authorization req = tok /\
  contentType req = "application/json" /\
  ((method req = "GET" /\ url req = API_URL ++ "/tasks" /\ payload req = None) \/
   (method req = "POST" /\ url req = API_URL ++ "/tasks" /\ payload req <> None) \/
   (method req = "PUT" /\ (exists id, url req = API_URL ++ "/tasks/" ++ id) /\
    payload req <> None) \/
   (method req = "DELETE" /\ (exists id, url req = API_URL ++ "/tasks/" ++ id) /\
    payload req = None)).

Section WithHost.
Context {host : Host}.

(** The fetched items the callback of [loadTasks] gets through: anything
    but [null] and [undefined], with a deadline that is falsy or a date. *)
Definition normalizable (item : value) : bool :=
  match member item "deadline" with
  | Return d =>
      negb (truthy d) || match newDate d with Some _ => true | None => false end
  | Throw _ => false
  end.

(** The deadline the callback of [loadTasks] writes for the deadline [d] it
    reads (for an item that gets through). *)
Definition canonicalDeadline (d : value) : value :=
  if truthy d then
    match newDate d with
    | Some t => VStr (isoString t)
    | None => VNull
    end
  else VNull.

(** A fetched item with its dates normalized: every property as fetched,
    the deadline re-expressed as an ISO string, or [null]. *)
Definition reexpressed (item : value) : obj :=
  JS.set "deadline"
    match member item "deadline" with
    | Return d => canonicalDeadline d
    | Throw _ => VNull
    end
    (ownProps item).

(** The editable value of time value [t]: the fields of its local time. *)
Definition editableOf (t : Z) : string :=
  let lt := LocalTime t in
  minuteForm (YearFromTime lt) (MonthFromTime lt + 1) (DateFromTime lt)
    (HourFromTime lt) (MinFromTime lt).

End WithHost.

(** Every logged request of [w] is well formed for the token of [w]. *)
Definition tidy (w : World) : Prop :=
  forall x, In x (log w) -> exists tok, token w = Return tok /\ wellFormed tok (request x).

(** The session of [w0] is still the session, and the log is tidy. *)
Definition orderly (w0 : World) (c : Ctl) : Prop :=
  session (world c) = session w0 /\ tidy (world c).

(** The form the Edit button fills in. *)
Definition editForm (t : obj) (deadline : string) : obj :=
  [("taskId", get "taskId" t);
   ("title", or_else (get "title" t) (VStr ""));
   ("description", or_else (get "description" t) (VStr ""));
   ("status", or_else (get "status" t) (VStr "Pending"));
   ("deadline", VStr deadline)].

(** The requests an event adds to the log: none, one, or a mutation
    followed by the list fetch. *)
Definition burst (rest : list Exchange) : Prop :=
  rest = [] \/
  (exists x, rest = [x]) \/
  (exists x g, rest = [x; g] /\ method (request g) = "GET" /\
               url (request g) = API_URL ++ "/tasks" /\
               method (request x) <> "GET").

(** The state with another [error]. *)
Definition withError (e : option string) (s : AppState) : AppState :=
  mkState (tasks s) (loading s) (editing s) (form s) (filter s) e.

End Shapes.

(** ** Facts about the calendar *)

Module CalendarFacts.
Import Calendar.

(** Linear arithmetic with quotients and remainders by constants. *)
Ltac zdiv := Z.div_mod_to_equations; lia.

(** *** Years *)

Lemma DayFromYear_succ (y : Z) :
  DayFromYear (y + 1) = DayFromYear y + DaysInYear y.
Proof.
  unfold DayFromYear, DaysInYear, isLeap.
  destruct (y mod 4 =? 0) eqn:E4; destruct (y mod 100 =? 0) eqn:E100;
    destruct (y mod 400 =? 0) eqn:E400; cbn [andb orb negb];
    rewrite ?Z.eqb_eq, ?Z.eqb_neq in *; zdiv.
Qed.

Lemma DaysInYear_pos (y : Z) : 365 <= DaysInYear y <= 366.
Proof. unfold DaysInYear. destruct (isLeap y); lia. Qed.

Lemma DayFromYear_lt (y1 y2 : Z) : y1 < y2 -> DayFromYear y1 < DayFromYear y2.
Proof.
  intros H. unfold DayFromYear. zdiv.
Qed.

Lemma YearFromDay_spec (d : Z) :
  DayFromYear (YearFromDay d) <= d < DayFromYear (YearFromDay d + 1).
Proof.
  unfold YearFromDay.
  set (y := 1970 + 400 * d / 146097).
  assert (Hlo : DayFromYear (y - 1) <= d) by (subst y; unfold DayFromYear; zdiv).
  assert (Hhi : d < DayFromYear (y + 2)) by (subst y; unfold DayFromYear; zdiv).
  destruct (d <? DayFromYear y) eqn:E1.
  - apply Z.ltb_lt in E1. replace (y - 1 + 1) with y by lia. lia.
  - apply Z.ltb_ge in E1.
    destruct (DayFromYear (y + 1) <=? d) eqn:E2.
    + apply Z.leb_le in E2. replace (y + 1 + 1) with (y + 2) by lia. lia.
    + apply Z.leb_gt in E2. lia.
Qed.

Lemma YearFromDay_unique (y d : Z) :
  DayFromYear y <= d < DayFromYear (y + 1) -> YearFromDay d = y.
Proof.
  intros H. pose proof (YearFromDay_spec d) as S.
  destruct (Z.lt_trichotomy (YearFromDay d) y) as [L | [E | G]]; [| exact E |].
  - assert (DayFromYear (YearFromDay d + 1) <= DayFromYear y).
    { destruct (Z.eq_dec (YearFromDay d + 1) y) as [-> | N]; [lia |].
      apply Z.lt_le_incl, DayFromYear_lt. lia. }
    lia.
  - assert (DayFromYear (y + 1) <= DayFromYear (YearFromDay d)).
    { destruct (Z.eq_dec (y + 1) (YearFromDay d)) as [-> | N]; [lia |].
      apply Z.lt_le_incl, DayFromYear_lt. lia. }
    lia.
Qed.

(** *** Months and days of the month *)

Lemma monthOfYearDay_range (leap : bool) (d : Z) :
  0 <= monthOfYearDay leap d <= 11.
Proof.
  unfold monthOfYearDay.
  repeat match goal with |- context [if ?c then _ else _] => destruct c end; lia.
Qed.

Lemma monthOfYearDay_spec (leap : bool) (d : Z) :
  0 <= d < (if leap then 366 else 365) ->
  monthStart leap (monthOfYearDay leap d) <= d
    < monthStart leap (monthOfYearDay leap d + 1).
Proof.
  intros H. unfold monthOfYearDay.
  repeat match goal with
         | |- context [if ?a <? ?b then _ else _] =>
             let E := fresh "E" in
             destruct (a <? b) eqn:E;
             [apply Z.ltb_lt in E | apply Z.ltb_ge in E]
         end;
    destruct leap; cbn in *; lia.
Qed.

Lemma monthOfYearDay_unique (leap : bool) (m d : Z) :
  0 <= m <= 11 ->
  monthStart leap m <= d < monthStart leap (m + 1) ->
  monthOfYearDay leap d = m.
Proof.
  intros Hm H.
  assert (C : m = 0 \/ m = 1 \/ m = 2 \/ m = 3 \/ m = 4 \/ m = 5 \/ m = 6 \/
              m = 7 \/ m = 8 \/ m = 9 \/ m = 10 \/ m = 11) by lia.
  unfold monthOfYearDay.
  repeat match goal with
         | |- context [if ?a <? ?b then _ else _] =>
             let E := fresh "E" in
             destruct (a <? b) eqn:E;
             [apply Z.ltb_lt in E | apply Z.ltb_ge in E]
         end;
    repeat (destruct C as [-> | C]); try subst m;
    destruct leap; cbn in *; lia.
Qed.

Lemma monthStart_bounds (leap : bool) (m : Z) :
  0 <= m <= 11 ->
  0 <= monthStart leap m /\
  monthStart leap m + 28 <= monthStart leap (m + 1) <= monthStart leap m + 31 /\
  monthStart leap (m + 1) <= (if leap then 366 else 365).
Proof.
  intros Hm.
  assert (C : m = 0 \/ m = 1 \/ m = 2 \/ m = 3 \/ m = 4 \/ m = 5 \/ m = 6 \/
              m = 7 \/ m = 8 \/ m = 9 \/ m = 10 \/ m = 11) by lia.
  repeat (destruct C as [-> | C]); try subst m; destruct leap; cbn; lia.
Qed.

(** *** Time within the day *)

Lemma MakeTime_range (h mi s ms : Z) :
  0 <= h < 24 -> 0 <= mi < 60 -> 0 <= s < 60 -> 0 <= ms < 1000 ->
  0 <= MakeTime h mi s ms < msPerDay.
Proof. unfold MakeTime, msPerDay, msPerHour, msPerMinute, msPerSecond. lia. Qed.

Lemma Day_MakeDate (day time : Z) :
  0 <= time < msPerDay -> Day (MakeDate day time) = day.
Proof. unfold Day, MakeDate, msPerDay. intros H. zdiv. Qed.

(** *** From fields to a time value and back *)

Lemma MakeDay_simple (y m d : Z) :
  0 <= m <= 11 ->
  MakeDay y m d = DayFromYear y + monthStart (isLeap y) m + d - 1.
Proof.
  intros Hm. unfold MakeDay. cbv zeta.
  replace (m / 12) with 0 by zdiv. replace (m mod 12) with m by zdiv.
  replace (y + 0) with y by lia. reflexivity.
Qed.

Section Fields.

Variables y m d h mi s ms : Z.
Hypothesis Hm : 0 <= m <= 11.
Hypothesis Hd : 1 <= d <= DaysInMonth y m.
Hypothesis Hh : 0 <= h < 24.
Hypothesis Hmi : 0 <= mi < 60.
Hypothesis Hs : 0 <= s < 60.
Hypothesis Hms : 0 <= ms < 1000.

Let t := MakeDate (MakeDay y m d) (MakeTime h mi s ms).

Lemma Day_fields : Day t = MakeDay y m d.
Proof. apply Day_MakeDate, MakeTime_range; assumption. Qed.

Lemma yearDay_fields :
  0 <= monthStart (isLeap y) m + d - 1 < DaysInYear y /\
  monthStart (isLeap y) m <= monthStart (isLeap y) m + d - 1
    < monthStart (isLeap y) (m + 1).
Proof.
  pose proof (monthStart_bounds (isLeap y) m Hm) as B.
  unfold DaysInMonth in Hd. unfold DaysInYear. lia.
Qed.

Lemma YearFromTime_fields : YearFromTime t = y.
Proof.
  unfold YearFromTime. rewrite Day_fields, MakeDay_simple by assumption.
  apply YearFromDay_unique. rewrite DayFromYear_succ.
  pose proof yearDay_fields. lia.
Qed.

Lemma DayWithinYear_fields : DayWithinYear t = monthStart (isLeap y) m + d - 1.
Proof.
  unfold DayWithinYear.
  rewrite YearFromTime_fields, Day_fields, MakeDay_simple by assumption. lia.
Qed.

Lemma MonthFromTime_fields : MonthFromTime t = m.
Proof.
  unfold MonthFromTime, InLeapYear.
  rewrite YearFromTime_fields, DayWithinYear_fields.
  apply monthOfYearDay_unique; [assumption | apply yearDay_fields].
Qed.

Lemma DateFromTime_fields : DateFromTime t = d.
Proof.
  unfold DateFromTime, InLeapYear.
  rewrite MonthFromTime_fields, YearFromTime_fields, DayWithinYear_fields. lia.
Qed.

Lemma HourFromTime_fields : HourFromTime t = h.
Proof.
  unfold HourFromTime, t, MakeDate, MakeTime, msPerDay, msPerHour, msPerMinute,
    msPerSecond. zdiv.
Qed.

Lemma MinFromTime_fields : MinFromTime t = mi.
Proof.
  unfold MinFromTime, t, MakeDate, MakeTime, msPerDay, msPerHour, msPerMinute,
    msPerSecond. zdiv.
Qed.

Lemma SecFromTime_fields : SecFromTime t = s.
Proof.
  unfold SecFromTime, t, MakeDate, MakeTime, msPerDay, msPerHour, msPerMinute,
    msPerSecond. zdiv.
Qed.

Lemma msFromTime_fields : msFromTime t = ms.
Proof.
  unfold msFromTime, t, MakeDate, MakeTime, msPerDay, msPerHour, msPerMinute,
    msPerSecond. zdiv.
Qed.

End Fields.

(** *** From a time value to fields and back *)

Lemma DayWithinYear_range (t : Z) : 0 <= DayWithinYear t < DaysInYear (YearFromTime t).
Proof.
  unfold DayWithinYear, YearFromTime.
  pose proof (YearFromDay_spec (Day t)) as S.
  rewrite DayFromYear_succ in S. lia.
Qed.

Lemma MonthFromTime_range (t : Z) : 0 <= MonthFromTime t <= 11.
Proof. apply monthOfYearDay_range. Qed.

Lemma DateFromTime_range (t : Z) :
  1 <= DateFromTime t <= DaysInMonth (YearFromTime t) (MonthFromTime t).
Proof.
  unfold DateFromTime, DaysInMonth, MonthFromTime, InLeapYear.
  pose proof (DayWithinYear_range t) as R. unfold DaysInYear in R.
  pose proof (monthOfYearDay_spec (isLeap (YearFromTime t)) (DayWithinYear t) R).
  lia.
Qed.

Lemma clock_ranges (t : Z) :
  0 <= HourFromTime t < 24 /\ 0 <= MinFromTime t < 60 /\
  0 <= SecFromTime t < 60 /\ 0 <= msFromTime t < 1000.
Proof.
  unfold HourFromTime, MinFromTime, SecFromTime, msFromTime, msPerSecond.
  repeat split; zdiv.
Qed.

Lemma MakeDay_of_time (t : Z) :
  MakeDay (YearFromTime t) (MonthFromTime t) (DateFromTime t) = Day t.
Proof.
  rewrite MakeDay_simple by apply MonthFromTime_range.
  unfold DateFromTime, MonthFromTime, InLeapYear, DayWithinYear. lia.
Qed.

Lemma MakeTime_of_time (t : Z) :
  MakeTime (HourFromTime t) (MinFromTime t) (SecFromTime t) (msFromTime t)
  = TimeWithinDay t.
Proof.
  unfold MakeTime, HourFromTime, MinFromTime, SecFromTime, msFromTime,
    TimeWithinDay, msPerDay, msPerHour, msPerMinute, msPerSecond. zdiv.
Qed.

Lemma MakeDate_of_time (t : Z) :
  MakeDate (MakeDay (YearFromTime t) (MonthFromTime t) (DateFromTime t))
           (MakeTime (HourFromTime t) (MinFromTime t) (SecFromTime t) (msFromTime t))
  = t.
Proof.
  rewrite MakeDay_of_time, MakeTime_of_time.
  unfold MakeDate, Day, TimeWithinDay, msPerDay. zdiv.
Qed.

End CalendarFacts.

(** ** Facts about decimal fields *)

Module TextFacts.
Import Text.

Lemma digit_cases (P : Z -> Prop) :
  P 0 -> P 1 -> P 2 -> P 3 -> P 4 -> P 5 -> P 6 -> P 7 -> P 8 -> P 9 ->
  forall n, 0 <= n <= 9 -> P n.
Proof.
  intros P0 P1 P2 P3 P4 P5 P6 P7 P8 P9 n H.
  destruct n as [| p | p]; [assumption | | lia].
  do 4 (try destruct p as [p | p |]; try lia; try assumption).
Qed.

Lemma digitVal_digitChar (n : Z) : 0 <= n <= 9 -> digitVal (digitChar n) = Some n.
Proof. revert n. apply digit_cases; reflexivity. Qed.

Lemma digitChar_digitVal (c : ascii) (n : Z) :
  digitVal c = Some n -> c = digitChar n /\ 0 <= n <= 9.
Proof.
  destruct c as [[] [] [] [] [] [] [] []]; intros H; vm_compute in H;
    try discriminate H; injection H as <-; (split; [reflexivity | lia]).
Qed.

Lemma digitChar_is_digit (n : Z) : exists v, digitVal (digitChar n) = Some v.
Proof.
  destruct n as [| p | p]; [eexists; reflexivity | | eexists; reflexivity].
  do 4 (try destruct p as [p | p |]; try (eexists; reflexivity)).
Qed.

Lemma digitChar_not (n : Z) (c : ascii) :
  digitVal c = None -> Ascii.eqb (digitChar n) c = false.
Proof.
  intros H. apply Ascii.eqb_neq. intros E. subst c.
  destruct (digitChar_is_digit n) as [v V]. congruence.
Qed.

Lemma readDigits_padded (w : nat) : forall n acc rest,
  0 <= n < 10 ^ Z.of_nat w ->
  readDigits w acc (padded w n ++ rest) = Some (acc * 10 ^ Z.of_nat w + n, rest).
Proof.
  induction w as [| w IH]; intros n acc rest H.
  - cbn in *. f_equal. f_equal. lia.
  - cbn [padded readDigits append].
    assert (P : 0 < 10 ^ Z.of_nat w) by (apply Z.pow_pos_nonneg; lia).
    assert (E : 10 ^ Z.of_nat (S w) = 10 * 10 ^ Z.of_nat w)
      by (rewrite Nat2Z.inj_succ, Z.pow_succ_r by lia; reflexivity).
    rewrite E in *.
    set (q := 10 ^ Z.of_nat w) in *.
    assert (Q : 0 <= n / q <= 9).
    { split; [apply Z.div_pos; lia |].
      assert (n / q < 10) by (apply Z.div_lt_upper_bound; lia). lia. }
    rewrite digitVal_digitChar by exact Q.
    rewrite IH by (apply Z.mod_pos_bound; lia).
    f_equal. f_equal.
    pose proof (Z.div_mod n q ltac:(lia)). lia.
Qed.

Lemma padded_readDigits (w : nat) : forall s acc n rest,
  readDigits w acc s = Some (n, rest) ->
  exists k, 0 <= k < 10 ^ Z.of_nat w /\ n = acc * 10 ^ Z.of_nat w + k /\
            s = padded w k ++ rest.
Proof.
  induction w as [| w IH]; intros s acc n rest H.
  - cbn in H. injection H as <- <-. exists 0. cbn. split; [lia | split; [lia | reflexivity]].
  - cbn [readDigits] in H. destruct s as [| c r]; [discriminate |].
    destruct (digitVal c) as [v |] eqn:V; [| discriminate].
    apply digitChar_digitVal in V. destruct V as [-> V].
    apply IH in H. destruct H as (k & Hk & -> & ->).
    assert (P : 0 < 10 ^ Z.of_nat w) by (apply Z.pow_pos_nonneg; lia).
    assert (E : 10 ^ Z.of_nat (S w) = 10 * 10 ^ Z.of_nat w)
      by (rewrite Nat2Z.inj_succ, Z.pow_succ_r by lia; reflexivity).
    set (q := 10 ^ Z.of_nat w) in *.
    exists (v * q + k). rewrite E.
    assert (D : (v * q + k) / q = v) by (rewrite Z.div_add_l by lia; rewrite Z.div_small by lia; lia).
    assert (M : (v * q + k) mod q = k)
      by (rewrite Z.add_comm, Z.mod_add by lia; apply Z.mod_small; lia).
    split; [nia | split; [lia |]].
    cbn [padded append]. fold q. rewrite D, M. reflexivity.
Qed.

End TextFacts.

(** ** Facts about date strings *)

Module DateFacts.
Import Calendar CalendarFacts Text TextFacts DateObj Forms.

Lemma readDigits_padded0 (w : nat) (n : Z) (rest : string) :
  0 <= n < 10 ^ Z.of_nat w ->
  readDigits w 0 (padded w n ++ rest) = Some (n, rest).
Proof. intros H. rewrite readDigits_padded by exact H. reflexivity. Qed.

Lemma padded4_head (y : Z) (rest : string) :
  padded 4 y ++ rest
  = String (digitChar (y / 10 ^ Z.of_nat 3)) (padded 3 (y mod 10 ^ Z.of_nat 3) ++ rest).
Proof. reflexivity. Qed.

Lemma readYear_plain (y : Z) (rest : string) :
  0 <= y <= 9999 -> readYear (padded 4 y ++ rest) = Some (y, rest).
Proof.
  intros H. rewrite padded4_head. unfold readYear.
  rewrite !digitChar_not by reflexivity.
  rewrite <- padded4_head. apply readDigits_padded0. cbn. lia.
Qed.

Lemma readYear_yearString (y : Z) (rest : string) :
  -999999 <= y <= 999999 -> readYear (yearString y ++ rest) = Some (y, rest).
Proof.
  intros H. unfold yearString.
  destruct ((0 <=? y) && (y <=? 9999)) eqn:E.
  - apply andb_true_iff in E. destruct E as [E1 E2].
    apply Z.leb_le in E1, E2. apply readYear_plain. lia.
  - apply andb_false_iff in E.
    destruct (y <? 0) eqn:N.
    + apply Z.ltb_lt in N. cbn [append readYear]. cbn [Ascii.eqb Bool.eqb].
      rewrite readDigits_padded0 by (cbn; lia).
      destruct (- y =? 0) eqn:Z0; [apply Z.eqb_eq in Z0; lia |].
      rewrite Z.opp_involutive. reflexivity.
    + apply Z.ltb_ge in N. cbn [append readYear]. cbn [Ascii.eqb Bool.eqb].
      apply readDigits_padded0. cbn. lia.
Qed.

Ltac read_field :=
  cbn [append startsWith tail Ascii.eqb Bool.eqb];
  first [ rewrite readDigits_padded0 by (cbn; lia)
        | unfold readOptional; cbn [append startsWith tail Ascii.eqb Bool.eqb];
          rewrite readDigits_padded0 by (cbn; lia) ].

Lemma readIso_fullForm (y mo d h mi s ms : Z) :
  -999999 <= y <= 999999 ->
  0 <= mo < 100 -> 0 <= d < 100 -> 0 <= h < 100 -> 0 <= mi < 100 ->
  0 <= s < 100 -> 0 <= ms < 1000 ->
  readIso (fullForm y mo d h mi s ms) = Some (mkIso y mo d h mi s ms true (Some 0)).
Proof.
  intros Hy Hmo Hd Hh Hmi Hs Hms. unfold readIso, fullForm.
  rewrite readYear_yearString by exact Hy.
  do 6 read_field.
  reflexivity.
Qed.

Lemma readIso_minuteForm (y mo d h mi : Z) :
  0 <= y <= 9999 ->
  0 <= mo < 100 -> 0 <= d < 100 -> 0 <= h < 100 -> 0 <= mi < 100 ->
  readIso (minuteForm y mo d h mi) = Some (mkIso y mo d h mi 0 0 true None).
Proof.
  intros Hy Hmo Hd Hh Hmi. unfold readIso, minuteForm.
  rewrite readYear_plain by exact Hy.
  do 3 read_field.
  cbn [append startsWith tail Ascii.eqb Bool.eqb].
  replace (padded 2 mi) with (padded 2 mi ++ "")
    by (cbn [padded append]; reflexivity).
  rewrite readDigits_padded0 by (cbn; lia).
  reflexivity.
Qed.

Lemma YearFromTime_bound (t : Z) :
  Z.abs t <= maxTime -> -271821 <= YearFromTime t <= 275760.
Proof.
  intros H. unfold YearFromTime.
  pose proof (YearFromDay_spec (Day t)) as S.
  assert (D : -100000000 <= Day t <= 100000000)
    by (unfold Day, msPerDay, maxTime in *; zdiv).
  revert S D. generalize (YearFromDay (Day t)) (Day t). intros y d.
  unfold DayFromYear. intros. zdiv.
Qed.

Lemma isoString_fullForm (t : Z) :
  isoString t = fullForm (YearFromTime t) (MonthFromTime t + 1) (DateFromTime t)
                  (HourFromTime t) (MinFromTime t) (SecFromTime t) (msFromTime t).
Proof. reflexivity. Qed.

Lemma legalFields_intro (f : isoFields) :
  1 <= isoMonth f <= 12 ->
  1 <= isoDay f <= DaysInMonth (isoYear f) (isoMonth f - 1) ->
  isoHour f < 24 -> isoMinute f <= 59 -> isoSecond f <= 59 ->
  legalFields f = true.
Proof.
  intros Hm Hd Hh Hmi Hs. unfold legalFields.
  repeat (apply andb_true_intro; split); try (apply Z.leb_le; lia).
  apply orb_true_iff. left. apply Z.ltb_lt. exact Hh.
Qed.

Lemma DaysInMonth_bound (y m : Z) : 0 <= m <= 11 -> 28 <= DaysInMonth y m <= 31.
Proof.
  intros H. unfold DaysInMonth.
  pose proof (monthStart_bounds (isLeap y) m H). lia.
Qed.

Section WithHost.
Context {host : Host}.

(** [Date.parse] inverts [toISOString] on every time value in range. *)
Lemma Date_parse_isoString (t : Z) :
  Z.abs t <= maxTime -> Date_parse (isoString t) = Some t.
Proof.
  intros H. unfold Date_parse.
  pose proof (YearFromTime_bound t H) as By.
  pose proof (MonthFromTime_range t) as Bm.
  pose proof (DateFromTime_range t) as Bd.
  pose proof (DaysInMonth_bound (YearFromTime t) (MonthFromTime t) Bm) as Bdm.
  pose proof (clock_ranges t) as (Bh & Bmi & Bs & Bms).
  rewrite isoString_fullForm, readIso_fullForm by lia.
  rewrite legalFields_intro; cbn [isoYear isoMonth isoDay isoHour isoMinute isoSecond];
    try lia;
    try (replace (MonthFromTime t + 1 - 1) with (MonthFromTime t) by lia; lia).
  unfold fieldsTime, wallTime.
  cbn [isoYear isoMonth isoDay isoHour isoMinute isoSecond isoMs isoOffset isoHasTime].
  replace (MonthFromTime t + 1 - 1) with (MonthFromTime t) by lia.
  rewrite MakeDate_of_time.
  unfold TimeClip. replace (t - 0 * msPerMinute) with t by lia.
  destruct (Z.abs t <=? maxTime) eqn:E; [reflexivity | apply Z.leb_gt in E; lia].
Qed.

End WithHost.

End DateFacts.

(** ** The converters [formatDateForInput] and [parseDateForAPI] *)

Module Converters.
Import Calendar CalendarFacts Text TextFacts DateObj Forms DateFacts App.

Lemma startsWith_inv (c : ascii) (s : string) :
  startsWith c s = true -> s = String c (tail s).
Proof.
  destruct s as [| c' r]; cbn; [discriminate |].
  intros H. apply Ascii.eqb_eq in H. subst. reflexivity.
Qed.

Lemma readMinuteForm_inv (s : string) (f : isoFields) :
  readMinuteForm s = Some f ->
  s = minuteForm (isoYear f) (isoMonth f) (isoDay f) (isoHour f) (isoMinute f) /\
  f = mkIso (isoYear f) (isoMonth f) (isoDay f) (isoHour f) (isoMinute f) 0 0 true None /\
  0 <= isoYear f <= 9999 /\ 0 <= isoMonth f < 100 /\ 0 <= isoDay f < 100 /\
  0 <= isoHour f < 100 /\ 0 <= isoMinute f < 100.
Proof.
  unfold readMinuteForm. intros H.
  destruct (readDigits 4 0 s) as [[y r1] |] eqn:E1; [| discriminate].
  destruct (startsWith "-" r1) eqn:S1; cbn [negb] in H; [| discriminate].
  destruct (readDigits 2 0 (tail r1)) as [[mo r2] |] eqn:E2; [| discriminate].
  destruct (startsWith "-" r2) eqn:S2; cbn [negb] in H; [| discriminate].
  destruct (readDigits 2 0 (tail r2)) as [[d r3] |] eqn:E3; [| discriminate].
  destruct (startsWith "T" r3) eqn:S3; cbn [negb] in H; [| discriminate].
  destruct (readDigits 2 0 (tail r3)) as [[h r4] |] eqn:E4; [| discriminate].
  destruct (startsWith ":" r4) eqn:S4; cbn [negb] in H; [| discriminate].
  destruct (readDigits 2 0 (tail r4)) as [[mi r5] |] eqn:E5; [| discriminate].
  destruct r5; [| discriminate]. injection H as <-.
  cbn [isoYear isoMonth isoDay isoHour isoMinute].
  apply padded_readDigits in E1, E2, E3, E4, E5.
  destruct E1 as (k1 & B1 & -> & ->), E2 as (k2 & B2 & -> & T2),
    E3 as (k3 & B3 & -> & T3), E4 as (k4 & B4 & -> & T4), E5 as (k5 & B5 & -> & T5).
  apply startsWith_inv in S1, S2, S3, S4.
  rewrite T2 in S1. rewrite T3 in S2. rewrite T4 in S3. rewrite T5 in S4.
  rewrite S1, S2, S3, S4.
  change (10 ^ Z.of_nat 4) with 10000 in *. change (10 ^ Z.of_nat 2) with 100 in *.
  replace (0 * 10000 + k1) with k1 by lia.
  replace (0 * 100 + k2) with k2 by lia. replace (0 * 100 + k3) with k3 by lia.
  replace (0 * 100 + k4) with k4 by lia. replace (0 * 100 + k5) with k5 by lia.
  repeat split; try lia.
Qed.

Lemma TimeClip_range (t u : Z) : TimeClip t = Some u -> u = t /\ Z.abs t <= maxTime.
Proof.
  unfold TimeClip. destruct (Z.abs t <=? maxTime) eqn:E; [| discriminate].
  intros H. injection H as <-. apply Z.leb_le in E. split; [reflexivity | exact E].
Qed.

Lemma TimeClip_in (t : Z) : Z.abs t <= maxTime -> TimeClip t = Some t.
Proof.
  intros H. unfold TimeClip.
  destruct (Z.abs t <=? maxTime) eqn:E; [reflexivity | apply Z.leb_gt in E; lia].
Qed.

Lemma TimeClip_out (t : Z) : maxTime < Z.abs t -> TimeClip t = None.
Proof.
  intros H. unfold TimeClip.
  destruct (Z.abs t <=? maxTime) eqn:E; [apply Z.leb_le in E; lia | reflexivity].
Qed.

Lemma isoString_cons (t : Z) : exists c r, isoString t = String c r.
Proof.
  unfold isoString, yearString.
  destruct ((0 <=? YearFromTime t) && (YearFromTime t <=? 9999));
    [| destruct (YearFromTime t <? 0)]; cbn [padded append]; eauto.
Qed.

Lemma isoString_truthy (t : Z) : truthy (VStr (isoString t)) = true.
Proof. destruct (isoString_cons t) as (c & r & ->). reflexivity. Qed.

Section WithHost.
Context {host : Host}.

(** Every Date holds NaN or a time value in range. *)
Lemma Date_parse_range (s : string) (t : Z) :
  Date_parse s = Some t -> Z.abs t <= maxTime.
Proof.
  unfold Date_parse, fieldsTime.
  destruct (readIso s) as [f |].
  - destruct (legalFields f); [| discriminate].
    destruct (isoOffset f); [| destruct (isoHasTime f)];
      intros H; apply TimeClip_range in H; destruct H as [-> H]; exact H.
  - destruct (legacyDateParse s); [| discriminate].
    intros H; apply TimeClip_range in H; destruct H as [-> H]; exact H.
Qed.

Lemma newDate_range (v : value) (t : Z) : newDate v = Some t -> Z.abs t <= maxTime.
Proof.
  destruct v; cbn [newDate]; try discriminate;
    try (apply Date_parse_range);
    intros H; apply TimeClip_range in H; destruct H as [-> H]; exact H.
Qed.

(** [getTimezoneOffset] is the zone offset, negated;
    [formatDateForInput] moves the time value to local time. *)
Lemma getTimezoneOffset_zone (t : Z) : getTimezoneOffset t = - zoneOffset t true.
Proof.
  unfold getTimezoneOffset, LocalTime, LocalTZA, msPerMinute. zdiv.
Qed.

Lemma shift_LocalTime (t : Z) : t - getTimezoneOffset t * 60 * 1000 = LocalTime t.
Proof.
  rewrite getTimezoneOffset_zone. unfold LocalTime, LocalTZA, msPerMinute. lia.
Qed.

(** *** [parseDateForAPI] *)

Lemma parseDateForAPI_falsy (v : value) :
  truthy v = false -> parseDateForAPI v = Return VNull.
Proof. intros H. unfold parseDateForAPI. rewrite H. reflexivity. Qed.

Lemma parseDateForAPI_invalid (v : value) :
  newDate v = None -> parseDateForAPI v = Return VNull.
Proof.
  intros H. unfold parseDateForAPI. rewrite H. destruct (truthy v); reflexivity.
Qed.

Lemma parseDateForAPI_valid (v : value) (t : Z) :
  truthy v = true -> newDate v = Some t ->
  parseDateForAPI v = Return (VStr (isoString t)).
Proof. intros T H. unfold parseDateForAPI. rewrite T, H. reflexivity. Qed.

(** [parseDateForAPI] returns, and returns [null] or an ISO string. *)
Lemma parseDateForAPI_total (v : value) :
  parseDateForAPI v = Return VNull \/
  exists t, Z.abs t <= maxTime /\ parseDateForAPI v = Return (VStr (isoString t)).
Proof.
  destruct (truthy v) eqn:T; [| left; apply parseDateForAPI_falsy; exact T].
  destruct (newDate v) as [t |] eqn:D; [| left; apply parseDateForAPI_invalid; exact D].
  right. exists t. split; [eapply newDate_range; exact D |].
  apply parseDateForAPI_valid; assumption.
Qed.

Lemma parseDateForAPI_isoString (t : Z) :
  Z.abs t <= maxTime ->
  parseDateForAPI (VStr (isoString t)) = Return (VStr (isoString t)).
Proof.
  intros H. apply parseDateForAPI_valid; [apply isoString_truthy |].
  cbn [newDate]. apply Date_parse_isoString. exact H.
Qed.

(** *** [formatDateForInput] *)

Lemma formatDateForInput_falsy (v : value) :
  truthy v = false -> formatDateForInput v = Return "".
Proof. intros H. unfold formatDateForInput. rewrite H. reflexivity. Qed.

Lemma formatDateForInput_invalid (v : value) :
  newDate v = None -> formatDateForInput v = Return "".
Proof.
  intros H. unfold formatDateForInput. rewrite H. destruct (truthy v); reflexivity.
Qed.

Lemma formatDateForInput_valid (v : value) (t : Z) :
  truthy v = true -> newDate v = Some t -> Z.abs (LocalTime t) <= maxTime ->
  formatDateForInput v = Return (substring 0 16 (isoString (LocalTime t))).
Proof.
  intros T D R. unfold formatDateForInput. rewrite T, D. cbn [negb].
  rewrite shift_LocalTime, TimeClip_in by exact R. reflexivity.
Qed.

(** The shifted time value is not checked: out of range, [toISOString] throws. *)
Lemma formatDateForInput_overflow (v : value) (t : Z) :
  truthy v = true -> newDate v = Some t -> maxTime < Z.abs (LocalTime t) ->
  formatDateForInput v = Throw (newError RangeError "Invalid time value").
Proof.
  intros T D R. unfold formatDateForInput. rewrite T, D. cbn [negb].
  rewrite shift_LocalTime, TimeClip_out by exact R. reflexivity.
Qed.

(** *** Editable to wire and back *)

Lemma validMinute_inv (f : isoFields) :
  validMinute f = true ->
  1 <= isoMonth f <= 12 /\
  1 <= isoDay f <= DaysInMonth (isoYear f) (isoMonth f - 1) /\
  isoHour f <= 23 /\ isoMinute f <= 59.
Proof.
  unfold validMinute. rewrite !andb_true_iff, !Z.leb_le. tauto.
Qed.

Lemma slice_fullForm (y mo d h mi s ms : Z) :
  0 <= y <= 9999 -> substring 0 16 (fullForm y mo d h mi s ms) = minuteForm y mo d h mi.
Proof.
  intros H. unfold fullForm, yearString.
  replace ((0 <=? y) && (y <=? 9999)) with true
    by (symmetry; apply andb_true_iff; rewrite !Z.leb_le; lia).
  reflexivity.
Qed.

Section Minute.

Variables y mo d h mi : Z.
Hypothesis Hy : 0 <= y <= 9999.
Hypothesis Hmo : 1 <= mo <= 12.
Hypothesis Hd : 1 <= d <= DaysInMonth y (mo - 1).
Hypothesis Hh : 0 <= h <= 23.
Hypothesis Hmi : 0 <= mi <= 59.

Let f := mkIso y mo d h mi 0 0 true None.

Lemma wallTime_minute_bound : Z.abs (wallTime f) <= 300000000000000.
Proof.
  unfold wallTime, f. cbn [isoYear isoMonth isoDay isoHour isoMinute isoSecond isoMs].
  assert (Hm : 0 <= mo - 1 <= 11) by lia.
  pose proof (monthStart_bounds (isLeap y) (mo - 1) Hm) as B.
  pose proof Hd as D. unfold DaysInMonth in D.
  rewrite MakeDay_simple by exact Hm.
  assert (Y : -719528 <= DayFromYear y <= 2932532) by (unfold DayFromYear; zdiv).
  unfold MakeDate, MakeTime, msPerDay, msPerHour, msPerMinute, msPerSecond.
  revert B D. generalize (monthStart (isLeap y) (mo - 1 + 1)).
  generalize (monthStart (isLeap y) (mo - 1)). destruct (isLeap y); lia.
Qed.

Lemma UTC_minute_bound : Z.abs (UTC (wallTime f)) <= maxTime.
Proof.
  pose proof wallTime_minute_bound as B.
  pose proof (zoneOffset_bound (wallTime f) false) as Z.
  unfold UTC, LocalTZA, msPerMinute, maxTime. lia.
Qed.

Lemma Date_parse_minuteForm :
  Date_parse (minuteForm y mo d h mi) = Some (UTC (wallTime f)).
Proof.
  unfold Date_parse.
  assert (Bd : 28 <= DaysInMonth y (mo - 1) <= 31) by (apply DaysInMonth_bound; lia).
  rewrite readIso_minuteForm by lia. fold f.
  rewrite legalFields_intro
    by (unfold f; cbn [isoYear isoMonth isoDay isoHour isoMinute isoSecond]; lia).
  unfold fieldsTime. unfold f at 1 2. cbn [isoOffset isoHasTime].
  apply TimeClip_in, UTC_minute_bound.
Qed.

Lemma isoString_wallTime : isoString (wallTime f) = fullForm y mo d h mi 0 0.
Proof.
  assert (Hm : 0 <= mo - 1 <= 11) by lia.
  rewrite isoString_fullForm. unfold wallTime, f.
  cbn [isoYear isoMonth isoDay isoHour isoMinute isoSecond isoMs].
  rewrite YearFromTime_fields, MonthFromTime_fields, DateFromTime_fields,
    HourFromTime_fields, MinFromTime_fields, SecFromTime_fields, msFromTime_fields
    by lia.
  replace (mo - 1 + 1) with mo by lia. reflexivity.
Qed.

(** With the offset at the instant equal to the offset the local time was
    read under, the wire value leads back to the string it came from. *)
Lemma roundtrip_minute :
  zoneOffset (UTC (wallTime f)) true = zoneOffset (wallTime f) false ->
  parseDateForAPI (VStr (minuteForm y mo d h mi))
    = Return (VStr (isoString (UTC (wallTime f)))) /\
  formatDateForInput (VStr (isoString (UTC (wallTime f))))
    = Return (minuteForm y mo d h mi).
Proof.
  intros Hz.
  assert (L : LocalTime (UTC (wallTime f)) = wallTime f)
    by (unfold LocalTime, LocalTZA; rewrite Hz; unfold UTC, LocalTZA; lia).
  split.
  - apply parseDateForAPI_valid; [reflexivity |].
    cbn [newDate]. apply Date_parse_minuteForm.
  - rewrite formatDateForInput_valid with (t := UTC (wallTime f)).
    + rewrite L, isoString_wallTime, slice_fullForm by exact Hy. reflexivity.
    + apply isoString_truthy.
    + cbn [newDate]. apply Date_parse_isoString, UTC_minute_bound.
    + rewrite L. pose proof wallTime_minute_bound. unfold maxTime. lia.
Qed.

End Minute.

End WithHost.

End Converters.

(** ** Facts about [apiCall] *)

Module ApiFacts.
Import Calendar Text DateObj App Contract.

Section WithHost.
Context {host : Host}.

Lemma getIdToken_eq (w : World) : getIdToken w = (token w, w).
Proof.
  unfold token, getIdToken, andThen, fetchAuthSession, throw, ret.
  destruct (session w) as [s | e]; [| reflexivity].
  destruct (lacksToken (sessionIdToken s)); [reflexivity |].
  destruct (sessionIdToken s) as [[] |]; reflexivity.
Qed.

Lemma apiCall_eq (path method : string) (body : value) (w : World) :
  apiCall path method body w =
  match token w with
  | Throw e => (Throw e, w)
  | Return tok =>
      (settle (server w (log w) (requestOf path method body tok)),
       sent w (requestOf path method body tok))
  end.
Proof.
  unfold apiCall, andThen. rewrite getIdToken_eq.
  destruct (token w) as [tok | e]; [| reflexivity].
  unfold fetch, sent, settle. fold (requestOf path method body tok).
  destruct (server w (log w) (requestOf path method body tok)) as [res | e];
    [| reflexivity].
  unfold throw, lift, ret. cbn [truthy].
  destruct (ok res); cbn [negb]; [| reflexivity].
  destruct (String.eqb (text res) ""); reflexivity.
Qed.

(** Without an id token nothing is sent. *)
Lemma token_absent (w : World) (s : option AuthSession) :
  session w = Return s -> lacksToken (sessionIdToken s) = true ->
  token w = Throw (newError Error noIdTokenMessage).
Proof.
  intros Hs Hl. unfold token, getIdToken, andThen, fetchAuthSession.
  rewrite Hs, Hl. reflexivity.
Qed.

Lemma apiCall_no_token (path method : string) (body : value) (w : World) (e : exn) :
  token w = Throw e -> apiCall path method body w = (Throw e, w).
Proof. intros H. rewrite apiCall_eq, H. reflexivity. Qed.

Lemma ok_range (res : Response) : ok res = true <-> 200 <= Net.status res <= 299.
Proof. unfold ok. rewrite andb_true_iff, !Z.leb_le. tauto. Qed.

End WithHost.

End ApiFacts.

(** ** Facts about the controller *)

Module ControllerFacts.
Import Calendar Text DateObj App Contract ApiFacts Converters.

Lemma get_set_same (k : string) (v : value) (o : obj) : get k (JS.set k v o) = v.
Proof.
  induction o as [| [k' v'] r IH]; cbn [JS.set get].
  - rewrite String.eqb_refl. reflexivity.
  - destruct (String.eqb k' k) eqn:E; cbn [get]; rewrite E; [reflexivity | exact IH].
Qed.

Lemma get_set_other (k k' : string) (v : value) (o : obj) :
  String.eqb k' k = false -> get k (JS.set k' v o) = get k o.
Proof.
  intros N. induction o as [| [k2 v2] r IH]; cbn [JS.set get].
  - rewrite N. reflexivity.
  - destruct (String.eqb k2 k') eqn:E; cbn [get].
    + apply String.eqb_eq in E. subst k2. rewrite N. reflexivity.
    + rewrite IH. reflexivity.
Qed.

Section WithHost.
Context {host : Host}.

Lemma lastListed_snoc (l : list Exchange) (x : Exchange) :
  lastListed (l ++ [x])
  = match listResult x with Some r => r | None => lastListed l end.
Proof. unfold lastListed. rewrite fold_left_app. reflexivity. Qed.

(** *** [awaiting] an API call *)

Lemma awaiting_apiCall (path method : string) (body : value) (c : Ctl) :
  awaiting (apiCall path method body) c =
  match token (world c) with
  | Throw e => (Throw e, mkCtl (state c) (world c) (pending c ++ [state c]))
  | Return tok =>
      let req := requestOf path method body tok in
      (settle (server (world c) (log (world c)) req),
       mkCtl (state c) (sent (world c) req) (pending c ++ [state c]))
  end.
Proof.
  unfold awaiting. rewrite apiCall_eq.
  destruct (token (world c)); reflexivity.
Qed.

Lemma awaiting_state {A} (m : Api A) (c : Ctl) : state (snd (awaiting m c)) = state c.
Proof. unfold awaiting. destruct (m (world c)). reflexivity. Qed.

Lemma awaiting_log_mutation (path verb : string) (body : value) (c : Ctl) :
  String.eqb verb "GET" = false ->
  lastListed (log (world (snd (awaiting (apiCall path verb body) c))))
  = lastListed (log (world c)).
Proof.
  intros N. rewrite awaiting_apiCall.
  destruct (token (world c)) as [tok | e]; [| reflexivity].
  cbn [snd world sent log]. rewrite lastListed_snoc.
  unfold listResult. cbn [request requestOf method]. rewrite N. reflexivity.
Qed.

(** *** [loadTasks] *)

Lemma loadTasks_eq (c : Ctl) :
  loadTasks c =
  let s := state c in
  mkCtl
    match listed (world c) with
    | Return l => mkState l false (editing s) (form s) (filter s) None
    | Throw e => mkState (tasks s) false (editing s) (form s) (filter s) (Some (shown e))
    end
    (snd (apiCall "/tasks" "GET" VNull (world c)))
    (pending c ++ [mkState (tasks s) true (editing s) (form s) (filter s) None]).
Proof.
  unfold loadTasks, listed, awaiting.
  cbn [setLoading setError update state world pending tasks loading editing form
       filter error].
  destruct (apiCall "/tasks" "GET" VNull (world c)) as [r w'].
  cbn [fst snd].
  destruct (let* items := r in normalizeItems items); reflexivity.
Qed.

Lemma listed_eq (w : World) :
  listed w =
  match token w with
  | Throw e => Throw e
  | Return tok =>
      let* items := settle (server w (log w) (requestOf "/tasks" "GET" VNull tok)) in
      normalizeItems items
  end.
Proof.
  unfold listed. rewrite apiCall_eq. destruct (token w); reflexivity.
Qed.

Lemma loadTasks_mirrors (c : Ctl) : mirrors c -> mirrors (loadTasks c).
Proof.
  unfold mirrors. intros I. rewrite loadTasks_eq. cbv zeta. cbn [state world].
  rewrite listed_eq, apiCall_eq.
  destruct (token (world c)) as [tok | e]; cbn [snd tasks]; [| exact I].
  cbn [sent log]. rewrite lastListed_snoc. unfold listResult.
  cbn [request outcome requestOf method url]. rewrite !String.eqb_refl. cbn [andb].
  destruct (let* items := settle _ in normalizeItems items); cbn [tasks];
    [reflexivity | exact I].
Qed.

Lemma mirrors_ext (c c' : Ctl) :
  tasks (state c') = tasks (state c) ->
  lastListed (log (world c')) = lastListed (log (world c)) ->
  mirrors c -> mirrors c'.
Proof. unfold mirrors. intros -> ->. exact (fun H => H). Qed.

(** After a call that is not a list fetch, and any change of the other
    state variables, the collection still mirrors the log. *)
Lemma mutation_mirrors (path method : string) (body : value) (c : Ctl) :
  String.eqb method "GET" = false ->
  mirrors c -> mirrors (snd (awaiting (apiCall path method body) c)).
Proof.
  intros N. apply mirrors_ext.
  - rewrite awaiting_state. reflexivity.
  - apply awaiting_log_mutation. exact N.
Qed.

Ltac setters :=
  apply mirrors_ext; cbn [setError setForm setEditing setFilter setLoading update
                          state world tasks]; try reflexivity.

Lemma createTask_mirrors (c : Ctl) : mirrors c -> mirrors (createTask c).
Proof.
  intros I. unfold createTask.
  destruct (parseDateForAPI _) as [deadline | err].
  - match goal with |- context [awaiting ?m ?c0] =>
      pose proof (mutation_mirrors "/tasks" "POST"
         (VObj [("title", get "title" (form (state c)));
                ("description", or_else (get "description" (form (state c))) (VStr ""));
                ("deadline", or_else deadline VNull)]) c0 eq_refl) as M;
      destruct (awaiting m c0) as [r c2]
    end.
    cbn [snd] in M.
    assert (I2 : mirrors c2) by (apply M; revert I; setters).
    destruct r; [apply loadTasks_mirrors |]; revert I2; setters.
  - revert I. setters.
Qed.

Lemma updateTask_mirrors (taskId : value) (patch : obj) (c : Ctl) :
  mirrors c -> mirrors (updateTask taskId patch c).
Proof.
  intros I. unfold updateTask.
  destruct (parseDateForAPI _) as [deadline | err].
  - match goal with |- context [awaiting ?m ?c0] =>
      pose proof (mutation_mirrors ("/tasks/" ++ ToString taskId) "PUT"
                    (updateBody taskId patch deadline) c0 eq_refl) as M;
      destruct (awaiting m c0) as [r c2]
    end.
    cbn [snd] in M.
    assert (I2 : mirrors c2) by (apply M; revert I; setters).
    destruct r; [apply loadTasks_mirrors |]; revert I2; setters.
  - revert I. setters.
Qed.

Lemma removeTask_mirrors (taskId : value) (c : Ctl) :
  mirrors c -> mirrors (removeTask taskId c).
Proof.
  intros I. unfold removeTask.
  match goal with |- context [awaiting ?m ?c0] =>
    pose proof (mutation_mirrors ("/tasks/" ++ ToString taskId) "DELETE" VNull c0
                  eq_refl) as M;
    destruct (awaiting m c0) as [r c2]
  end.
  cbn [snd] in M.
  assert (I2 : mirrors c2) by (apply M; revert I; setters).
  destruct r; [apply loadTasks_mirrors |]; revert I2; setters.
Qed.

Lemma step_mirrors (a : action) (c : Ctl) : mirrors c -> mirrors (step a c).
Proof.
  intros I. destruct a; cbn [step].
  - apply loadTasks_mirrors, I.
  - apply loadTasks_mirrors, I.
  - revert I. setters.
  - revert I. unfold onInput. setters.
  - unfold onSubmit. destruct (truthy _);
      [apply updateTask_mirrors | apply createTask_mirrors]; exact I.
  - revert I. unfold onCancel. setters.
  - apply updateTask_mirrors, I.
  - unfold onEdit. destruct (if truthy _ then _ else _); revert I; setters.
  - unfold onDelete. destruct confirmed; [apply removeTask_mirrors |]; exact I.
Qed.

Lemma run_mirrors (l : list action) : forall c, mirrors c -> mirrors (run l c).
Proof.
  induction l as [| a l IH]; intros c I; [exact I |].
  apply IH, step_mirrors, I.
Qed.

(** *** What list normalization leaves *)

Lemma normalizeItem_normalized (item : value) (o : obj) :
  normalizeItem item = Return o -> normalizedTask o.
Proof.
  unfold normalizeItem. destruct (member item "deadline") as [d | e]; cbn [JS.bind];
    [| discriminate].
  destruct (truthy d).
  - destruct (newDate d) as [t |] eqn:D; cbn [toISOString JS.bind]; [| discriminate].
    intros H. injection H as <-. right. exists t.
    split; [eapply newDate_range; exact D | apply get_set_same].
  - cbn [JS.bind]. intros H. injection H as <-. left. apply get_set_same.
Qed.

Lemma mapItems_normalized (items : list value) : forall os,
  mapItems items = Return os -> Forall normalizedTask os.
Proof.
  induction items as [| item rest IH]; intros os; cbn [mapItems].
  - intros H. injection H as <-. constructor.
  - destruct (normalizeItem item) as [o | e] eqn:N; cbn [JS.bind]; [| discriminate].
    destruct (mapItems rest) as [os' | e]; cbn [JS.bind]; [| discriminate].
    intros H. injection H as <-. constructor.
    + eapply normalizeItem_normalized; exact N.
    + apply IH. reflexivity.
Qed.

Lemma normalizeItems_normalized (items : value) (os : list obj) :
  normalizeItems items = Return os -> Forall normalizedTask os.
Proof.
  destruct items; cbn [normalizeItems];
    try (intros H; injection H as <-; constructor).
  apply mapItems_normalized.
Qed.

Lemma listResult_normalized (x : Exchange) (l : list obj) :
  listResult x = Some l -> Forall normalizedTask l.
Proof.
  unfold listResult. destruct (_ && _); [| discriminate].
  destruct (settle (outcome x)) as [items | e]; cbn [JS.bind]; [| discriminate].
  destruct (normalizeItems items) as [os | e] eqn:N; [| discriminate].
  intros H. injection H as <-. eapply normalizeItems_normalized; exact N.
Qed.

Lemma lastListed_normalized (l : list Exchange) : Forall normalizedTask (lastListed l).
Proof.
  unfold lastListed.
  assert (G : forall acc, Forall normalizedTask acc ->
                Forall normalizedTask
                  (fold_left (fun acc x => match listResult x with
                                           | Some r => r
                                           | None => acc
                                           end) l acc)).
  { induction l as [| x l IH]; intros acc A; cbn [fold_left]; [exact A |].
    apply IH. destruct (listResult x) as [r |] eqn:R; [| exact A].
    eapply listResult_normalized; exact R. }
  apply G. constructor.
Qed.

Lemma mounted_mirrors (w : World) : log w = [] -> mirrors (mounted w).
Proof. intros H. unfold mirrors, mounted. cbn. rewrite H. reflexivity. Qed.

(** *** Calls without an id token *)

Lemma awaiting_no_token (path verb : string) (body : value) (c : Ctl) (e : exn) :
  token (world c) = Throw e ->
  awaiting (apiCall path verb body) c
  = (Throw e, mkCtl (state c) (world c) (pending c ++ [state c])).
Proof. intros H. rewrite awaiting_apiCall, H. reflexivity. Qed.

Lemma parseDateForAPI_returns (v : value) : exists r, parseDateForAPI v = Return r.
Proof.
  destruct (parseDateForAPI_total v) as [H | (t & _ & H)]; rewrite H; eauto.
Qed.

Lemma loadTasks_no_token (c : Ctl) (e : exn) :
  token (world c) = Throw e ->
  error (state (loadTasks c)) = Some (shown e) /\ world (loadTasks c) = world c.
Proof.
  intros H. rewrite loadTasks_eq. cbv zeta. cbn [state world].
  rewrite listed_eq, apiCall_eq, H. split; reflexivity.
Qed.

Lemma createTask_no_token (c : Ctl) (e : exn) :
  token (world c) = Throw e ->
  error (state (createTask c)) = Some (shown e) /\ world (createTask c) = world c.
Proof.
  intros H. unfold createTask.
  destruct (parseDateForAPI_returns (get "deadline" (form (state c)))) as [d ->].
  rewrite awaiting_no_token with (e := e) by exact H. split; reflexivity.
Qed.

Lemma updateTask_no_token (taskId : value) (patch : obj) (c : Ctl) (e : exn) :
  token (world c) = Throw e ->
  error (state (updateTask taskId patch c)) = Some (shown e) /\
  world (updateTask taskId patch c) = world c.
Proof.
  intros H. unfold updateTask.
  destruct (parseDateForAPI_returns (get "deadline" patch)) as [d ->].
  rewrite awaiting_no_token with (e := e) by exact H. split; reflexivity.
Qed.

Lemma removeTask_no_token (taskId : value) (c : Ctl) (e : exn) :
  token (world c) = Throw e ->
  error (state (removeTask taskId c)) = Some (shown e) /\
  world (removeTask taskId c) = world c.
Proof.
  intros H. unfold removeTask.
  rewrite awaiting_no_token with (e := e) by exact H. split; reflexivity.
Qed.

(** *** The request of an update *)

Lemma loadTasks_log (c : Ctl) :
  exists rest, log (world (loadTasks c)) = (log (world c) ++ rest)%list.
Proof.
  rewrite loadTasks_eq. cbv zeta. cbn [world]. rewrite apiCall_eq.
  destruct (token (world c)); cbn [snd sent log].
  - eexists. reflexivity.
  - exists []. rewrite app_nil_r. reflexivity.
Qed.

Lemma updateTask_request (taskId : value) (patch : obj) (c : Ctl) (tok : string)
      (deadline : value) :
  token (world c) = Return tok ->
  parseDateForAPI (get "deadline" patch) = Return deadline ->
  let req := requestOf ("/tasks/" ++ ToString taskId) "PUT"
               (updateBody taskId patch deadline) tok in
  exists rest,
    log (world (updateTask taskId patch c))
    = (log (world c)
         ++ mkExchange req (server (world c) (log (world c)) req) :: rest)%list.
Proof.
  intros T D req. unfold updateTask. rewrite D, awaiting_apiCall.
  cbn [setError update world state pending]. rewrite T. cbv zeta. fold req.
  destruct (settle _) as [v | e].
  - match goal with |- context [loadTasks ?c0] =>
      destruct (loadTasks_log c0) as [rest R]; rewrite R
    end.
    cbn [setForm setEditing update world sent log].
    exists rest. rewrite <- app_assoc. reflexivity.
  - cbn [setError update world sent log]. exists []. reflexivity.
Qed.

Lemma toggle_deadline (t : obj) :
  normalizedTask t ->
  exists d, parseDateForAPI (get "deadline" (togglePatch t)) = Return d /\
            or_else d VNull = get "deadline" t.
Proof.
  intros N. unfold togglePatch. rewrite get_set_other by reflexivity.
  destruct N as [-> | (tv & R & ->)].
  - exists VNull. split; reflexivity.
  - exists (VStr (isoString tv)). split; [apply parseDateForAPI_isoString, R |].
    unfold or_else. rewrite isoString_truthy. reflexivity.
Qed.

End WithHost.

(** *** The filter *)

Lemma visibleTasks_all (T : list obj) : visibleTasks "All" T = T.
Proof. reflexivity. Qed.

Lemma strictEqStr_eq (v : value) (s : string) : strictEqStr v s = true <-> v = VStr s.
Proof.
  destruct v; cbn [strictEqStr]; try (split; discriminate).
  rewrite String.eqb_eq. split; [intros -> | intros H; injection H as ->]; reflexivity.
Qed.

Lemma visibleTasks_filter (f : string) (T : list obj) :
  f <> "All" ->
  visibleTasks f T = List.filter (fun t => strictEqStr (effectiveStatus t) f) T.
Proof.
  intros N. unfold visibleTasks.
  destruct (String.eqb f "All") eqn:E; [apply String.eqb_eq in E; contradiction |].
  reflexivity.
Qed.

End ControllerFacts.

(** ** Facts about list normalization *)

Module NormalizationFacts.
Import Calendar Text DateObj App Contract Shapes DateFacts Converters ControllerFacts.

Lemma set_get (k : string) (v : value) (o : obj) :
  get k o = v -> v <> VUndefined -> JS.set k v o = o.
Proof.
  intros G N. induction o as [| [k' v'] r IH]; cbn [get JS.set] in *.
  - congruence.
  - destruct (String.eqb k' k); [congruence | rewrite IH by exact G; reflexivity].
Qed.

Section Normalization.
Context {host : Host}.

Lemma normalizeItem_inv (item : value) (o : obj) :
  normalizeItem item = Return o ->
  exists d, member item "deadline" = Return d /\
            normalizable item = true /\
            o = JS.set "deadline" (canonicalDeadline d) (ownProps item).
Proof.
  unfold normalizeItem, normalizable, canonicalDeadline.
  destruct (member item "deadline") as [d | e]; cbn [JS.bind]; [| discriminate].
  destruct (truthy d) eqn:T; cbn [negb orb].
  - destruct (newDate d) as [t |] eqn:D; cbn [toISOString JS.bind]; [| discriminate].
    intros H. injection H as <-. exists d. rewrite T, D. repeat split.
  - cbn [JS.bind]. intros H. injection H as <-. exists d. rewrite T. repeat split.
Qed.

Lemma normalizeItem_returns (item : value) :
  normalizable item = true -> exists o, normalizeItem item = Return o.
Proof.
  unfold normalizeItem, normalizable.
  destruct (member item "deadline") as [d | e]; cbn [JS.bind]; [| discriminate].
  destruct (truthy d); cbn [negb orb].
  - destruct (newDate d) as [t |]; cbn [toISOString JS.bind]; [eauto | discriminate].
  - cbn [JS.bind]. eauto.
Qed.

Lemma normalizeItem_fixed (o : obj) :
  normalizedTask o -> normalizeItem (VObj o) = Return o.
Proof.
  intros N. unfold normalizeItem. cbn [member JS.bind ownProps].
  destruct N as [E | (tv & R & E)]; rewrite E.
  - cbn [truthy JS.bind]. rewrite set_get; [reflexivity | exact E | discriminate].
  - rewrite isoString_truthy. cbn [newDate].
    rewrite Date_parse_isoString by exact R. cbn [toISOString JS.bind].
    rewrite set_get; [reflexivity | exact E | discriminate].
Qed.

Lemma mapItems_fixed (os : list obj) :
  Forall normalizedTask os -> mapItems (map VObj os) = Return os.
Proof.
  induction 1 as [| o os N _ IH]; cbn [map mapItems]; [reflexivity |].
  rewrite (normalizeItem_fixed o N). cbn [JS.bind]. rewrite IH. reflexivity.
Qed.

Lemma normalizeItem_reexpressed (item : value) :
  normalizable item = true -> normalizeItem item = Return (reexpressed item).
Proof.
  unfold normalizeItem, normalizable, reexpressed, canonicalDeadline.
  destruct (member item "deadline") as [d | e]; cbn [JS.bind]; [| discriminate].
  destruct (truthy d); cbn [negb orb].
  - destruct (newDate d) as [t |]; cbn [toISOString JS.bind]; [reflexivity | discriminate].
  - reflexivity.
Qed.

Lemma mapItems_reexpressed (items : list value) :
  forallb normalizable items = true -> mapItems items = Return (map reexpressed items).
Proof.
  induction items as [| item rest IH]; cbn [forallb mapItems map]; [reflexivity |].
  intros H. apply andb_true_iff in H. destruct H as [N R].
  rewrite (normalizeItem_reexpressed item N). cbn [JS.bind].
  rewrite (IH R). reflexivity.
Qed.

Lemma mapItems_throws (items : list value) :
  forallb normalizable items = false -> exists e, mapItems items = Throw e.
Proof.
  induction items as [| item rest IH]; cbn [forallb mapItems]; [discriminate |].
  intros H. destruct (normalizeItem item) as [o | e] eqn:N; cbn [JS.bind]; [| eauto].
  apply normalizeItem_inv in N. destruct N as (d & _ & N & _).
  rewrite N in H. cbn [andb] in H. destruct (IH H) as [e ->]. cbn [JS.bind]. eauto.
Qed.

End Normalization.

End NormalizationFacts.

(** ** The specification's statements *)

Module Spec.
Import Calendar Text DateObj App Forms Contract Shapes ApiFacts Converters
  ControllerFacts NormalizationFacts Samples.

Lemma reachable_mirrors {host : Host} (c : Ctl) : reachable c -> mirrors c.
Proof.
  intros (w & l & E & ->). apply run_mirrors, mounted_mirrors, E.
Qed.

Lemma reachable_normalized {host : Host} (c : Ctl) (t : obj) :
  reachable c -> In t (tasks (state c)) -> normalizedTask t.
Proof.
  intros R I. apply reachable_mirrors in R. unfold mirrors in R. rewrite R in I.
  pose proof (lastListed_normalized (log (world c))) as F.
  rewrite Forall_forall in F. apply F, I.
Qed.

Lemma filter_Projection (p : obj -> bool) (T : list obj) :
  Projection (fun t => p t = true) T (List.filter p T).
Proof.
  induction T as [| t T IH]; cbn [List.filter]; [constructor |].
  destruct (p t) eqn:E.
  - apply proj_keep; assumption.
  - apply proj_drop; [rewrite E; discriminate | assumption].
Qed.

Lemma Projection_ext (P Q : obj -> Prop) (T V : list obj) :
  (forall t, P t <-> Q t) -> Projection P T V -> Projection Q T V.
Proof.
  intros H J. induction J.
  - constructor.
  - apply proj_keep; [apply H; assumption | assumption].
  - apply proj_drop; [rewrite <- H; assumption | assumption].
Qed.

(** The toggle as the page issues it. *)
Lemma toggle_issues {host : Host} (c : Ctl) (t : obj) (tok : string) :
  normalizedTask t ->
  token (world c) = Return tok ->
  let req :=
    mkRequest (API_URL ++ "/tasks/" ++ ToString (get "taskId" t)) "PUT" tok
      "application/json"
      (Some (JSON_stringify
               (VObj [("taskId", get "taskId" t);
                      ("title", get "title" t);
                      ("description", or_else (get "description" t) (VStr ""));
                      ("deadline", get "deadline" t);
                      ("status",
                        VStr (if strictEqStr (get "status" t) "Completed"
                              then "Pending" else "Completed"))]))) in
  exists rest,
    log (world (onToggle t c))
    = (log (world c) ++ mkExchange req (server (world c) (log (world c)) req) :: rest)%list.
Proof.
  intros N T req.
  destruct (toggle_deadline t N) as (d & D & E).
  destruct (updateTask_request (get "taskId" t) (togglePatch t) c tok d T D) as [rest R].
  assert (Q : requestOf ("/tasks/" ++ ToString (get "taskId" t)) "PUT"
                (updateBody (get "taskId" t) (togglePatch t) d) tok = req).
  { unfold req, requestOf, updateBody. cbn [truthy]. rewrite E.
    unfold togglePatch.
    rewrite !get_set_other by reflexivity. rewrite get_set_same.
    unfold or_else at 2. cbn [truthy].
    destruct (strictEqStr (get "status" t) "Completed"); reflexivity. }
  rewrite Q in R. exists rest. exact R.
Qed.

(** *** C1: the response contract of [apiCall] *)

(** C1.  Once [apiCall] holds a token and [fetch] settles to a response:
    a status outside 200..299 makes the call fail with an error that carries
    the status code and, as body, the stringified parsed body when the body
    is JSON text and the string [<status> <statusText>] otherwise; a status
    in 200..299 with an empty body makes it return [null]; a status in
    200..299 with a non-empty body makes it settle as [JSON.parse] of the
    body does (the parsed value, or the parse failure). *)
Theorem apiCall_response (host : Host) (path verb : string) (body : value)
    (w : World) (tok : string) (res : Response) :
  token w = Return tok ->
  server w (log w) (requestOf path verb body tok) = Return res ->
  let result := fst (apiCall path verb body w) in
  (~ 200 <= Net.status res <= 299 ->
   exists errText,
     result = Throw (mkExn Error "API error" (Some (Net.status res)) (Some errText)) /\
     (forall json, JSON_parse (text res) = Return json -> errText = JSON_stringify json) /\
     (forall e, JSON_parse (text res) = Throw e ->
                errText = Text.ofZ (Net.status res) ++ " " ++ statusText res)) /\
  (200 <= Net.status res <= 299 -> text res = "" -> result = Return VNull) /\
  (200 <= Net.status res <= 299 -> text res <> "" -> result = JSON_parse (text res)).
Proof.
  intros T F result. subst result. rewrite apiCall_eq, T. cbn [fst]. rewrite F.
  unfold settle. repeat split.
  - intros N. destruct (ok res) eqn:O; [apply ok_range in O; contradiction |].
    eexists. split; [reflexivity |].
    split; [intros json -> | intros e ->]; reflexivity.
  - intros R E. apply ok_range in R. rewrite R, E. reflexivity.
  - intros R E. apply ok_range in R. rewrite R.
    destruct (String.eqb (text res) "") eqn:Q; [| reflexivity].
    apply String.eqb_eq in Q. contradiction.
Qed.

(** A 403 whose body is JSON text: the error carries 403 and the
    re-stringified body. *)
Lemma apiCall_response_witness :
  fst (apiCall (host := utcHost) "/tasks" "GET" VNull refusing)
  = Throw (mkExn Error "API error" (Some 403)
             (Some (stringify (VObj [("message", VStr "forbidden")])))).
Proof.
  destruct (apiCall_response utcHost "/tasks" "GET" VNull refusing "id-token" forbidden
              eq_refl eq_refl) as [H _].
  destruct H as (errText & -> & J & _); [cbn; lia |].
  rewrite (J (VObj [("message", VStr "forbidden")]) eq_refl). reflexivity.
Defined.

(** *** C2: editable to wire and back *)

(** C2, amended.  For every valid local datetime string [s] of minute
    precision ([YYYY-MM-DDTHH:mm], a day of the calendar, a time of the
    24-hour clock) that names a local time existing in the host's zone (the
    offset in force at the instant [s] is read as equals the offset [s] was
    read under), [parseDateForAPI] returns a wire string and
    [formatDateForInput] of that wire string returns [s]. *)
Theorem roundtrip_existing_local_time (host : Host) (s : string) (f : isoFields) :
  readMinuteForm s = Some f ->
  validMinute f = true ->
  zoneOffset (UTC (wallTime f)) true = zoneOffset (wallTime f) false ->
  exists wire,
    parseDateForAPI (VStr s) = Return (VStr wire) /\
    formatDateForInput (VStr wire) = Return s.
Proof.
  intros R V Z.
  apply readMinuteForm_inv in R. destruct R as (-> & F & Hy & Hmo & Hd & Hh & Hmi).
  apply validMinute_inv in V. destruct V as (Vmo & Vd & Vh & Vmi).
  rewrite F in Z.
  exists (isoString (UTC (wallTime
            (mkIso (isoYear f) (isoMonth f) (isoDay f) (isoHour f) (isoMinute f)
                   0 0 true None)))).
  apply roundtrip_minute; try assumption; lia.
Qed.

(** Half past two in the afternoon, in New York, on a day without clock change. *)
Lemma roundtrip_existing_local_time_witness :
  exists wire,
    parseDateForAPI (host := newYorkHost) (VStr "2024-03-09T14:30") = Return (VStr wire) /\
    formatDateForInput (host := newYorkHost) (VStr wire) = Return "2024-03-09T14:30".
Proof.
  apply (roundtrip_existing_local_time newYorkHost "2024-03-09T14:30"
           (mkIso 2024 3 9 14 30 0 0 true None));
    reflexivity.
Defined.

(** C2 as stated fails: in New York the clock skips from 02:00 to 03:00 on
    10 March 2024, and the valid string [2024-03-10T02:30] comes back as
    [2024-03-10T03:30]. *)
Lemma roundtrip_fails_for_skipped_local_time :
  ~ (forall (host : Host) (s : string),
       validLocal s = true ->
       exists wire,
         parseDateForAPI (VStr s) = Return (VStr wire) /\
         formatDateForInput (VStr wire) = Return s).
Proof.
  intros H.
  destruct (H newYorkHost "2024-03-10T02:30" eq_refl) as (wire & P & F).
  vm_compute in P. injection P as <-.
  vm_compute in F. discriminate F.
Qed.

(** What the code makes of the skipped time. *)
Lemma skipped_local_time_shifts :
  parseDateForAPI (host := newYorkHost) (VStr "2024-03-10T02:30")
    = Return (VStr "2024-03-10T07:30:00.000Z") /\
  formatDateForInput (host := newYorkHost) (VStr "2024-03-10T07:30:00.000Z")
    = Return "2024-03-10T03:30".
Proof. split; vm_compute; reflexivity. Qed.

(** In a zone whose offset never changes every valid string comes back. *)
Lemma roundtrip_fixed_zone (host : Host) (s : string) (off : Z) :
  (forall t b, zoneOffset t b = off) ->
  validLocal s = true ->
  exists wire,
    parseDateForAPI (VStr s) = Return (VStr wire) /\
    formatDateForInput (VStr wire) = Return s.
Proof.
  intros Z V. unfold validLocal in V.
  destruct (readMinuteForm s) as [f |] eqn:R; [| discriminate].
  apply readMinuteForm_inv in R. destruct R as (-> & F & Hy & Hmo & Hd & Hh & Hmi).
  apply validMinute_inv in V. destruct V as (Vmo & Vd & Vh & Vmi).
  eexists. apply roundtrip_minute; try assumption; try lia.
  rewrite !Z. reflexivity.
Qed.

(** *** C3: no session, no request *)

(** C3.  When the session provider yields no id token ([!idToken] holds:
    the token is absent, or the empty string), [apiCall] fails, for every
    path, method and body, with the error whose message is the no-id-token
    message and leaves the world as it was: nothing is sent.  So each
    controller operation (list, create, update, delete) ends with that
    message as [error] and with no request issued. *)
Theorem no_session_no_request (host : Host) (w : World) (s : option AuthSession) :
  session w = Return s ->
  lacksToken (sessionIdToken s) = true ->
  (forall path verb body,
     apiCall path verb body w = (Throw (newError Error noIdTokenMessage), w)) /\
  (forall c, world c = w ->
     let failedBeforeSending (c' : Ctl) :=
       error (state c') = Some noIdTokenMessage /\ world c' = w in
     failedBeforeSending (loadTasks c) /\
     failedBeforeSending (createTask c) /\
     (forall taskId patch, failedBeforeSending (updateTask taskId patch c)) /\
     (forall taskId, failedBeforeSending (removeTask taskId c))).
Proof.
  intros S L. pose proof (token_absent w s S L) as T. split.
  - intros. apply apiCall_no_token, T.
  - intros c <-. cbv zeta. repeat split;
      first [ apply loadTasks_no_token with (e := newError Error noIdTokenMessage)
            | apply createTask_no_token with (e := newError Error noIdTokenMessage)
            | apply updateTask_no_token with (e := newError Error noIdTokenMessage)
            | apply removeTask_no_token with (e := newError Error noIdTokenMessage) ];
      exact T.
Qed.

(** Signed out: a refresh shows the message and the log stays empty. *)
Lemma no_session_no_request_witness :
  error (state (loadTasks (host := utcHost) (mounted nobody))) = Some noIdTokenMessage /\
  log (world (loadTasks (host := utcHost) (mounted nobody))) = [].
Proof.
  destruct (no_session_no_request utcHost nobody (Some (mkSession None)) eq_refl eq_refl)
    as [_ H].
  destruct (H (mounted nobody) eq_refl) as ((E & W) & _).
  split; [exact E | rewrite W; reflexivity].
Defined.

(** *** C4: the filter is a projection *)

(** C4.  For every collection [T] and filter [f]: when [f] is ["All"] the
    visible tasks are [T]; otherwise they are exactly the tasks of [T], in
    their order, whose status (["Pending"] when absent or falsy) is [f].
    [visibleTasks] is a function of the filter and the collection alone. *)
Theorem visible_projection (T : list obj) (f : string) :
  (f = "All" -> visibleTasks f T = T) /\
  (f <> "All" ->
   Projection (fun t => or_else (get "status" t) (VStr "Pending") = VStr f)
     T (visibleTasks f T) /\
   (forall t, In t (visibleTasks f T)
              <-> In t T /\ or_else (get "status" t) (VStr "Pending") = VStr f)).
Proof.
  split.
  - intros ->. apply visibleTasks_all.
  - intros N. rewrite visibleTasks_filter by exact N. split.
    + eapply Projection_ext; [| apply filter_Projection].
      intros t. apply strictEqStr_eq.
    + intros t. rewrite filter_In, strictEqStr_eq. reflexivity.
Qed.

(** One completed task: nothing under ["Pending"], the task under ["All"]. *)
Lemma visible_projection_witness :
  visibleTasks "Pending" [report] = [] /\ visibleTasks "All" [report] = [report].
Proof.
  destruct (visible_projection [report] "All") as [A _].
  split; [reflexivity | apply A; reflexivity].
Defined.

(** *** C5: refresh *)

(** C5.  [loadTasks] puts on screen, while the list is fetched, the state
    with [loading] set and [error] cleared (and nothing else changed).  When
    the call returns an array whose items all get through the normalization,
    [tasks] becomes that array, item by item and in its order, each item
    with its properties as fetched and its deadline re-expressed as an ISO
    string or [null]; when the call returns anything but an array, [tasks]
    becomes empty; in both cases [error] stays cleared.  When the call
    fails, or the normalization throws, [error] becomes the failure's [body]
    if it has one and its [message] otherwise, and [tasks] stays.  Either
    way [loading] is false at the end. *)
Theorem loadTasks_effects (host : Host) (c : Ctl) :
  let s := state c in
  let c' := loadTasks c in
  let fetched := fst (apiCall "/tasks" "GET" VNull (world c)) in
  pending c' = (pending c ++ [mkState (tasks s) true (editing s) (form s) (filter s) None])%list /\
  loading (state c') = false /\
  (forall items, fetched = Return (VArr items) ->
                 forallb normalizable items = true ->
                 tasks (state c') = map reexpressed items /\ error (state c') = None) /\
  (forall v, fetched = Return v -> (forall items, v <> VArr items) ->
             tasks (state c') = [] /\ error (state c') = None) /\
  (forall e, fetched = Throw e ->
             tasks (state c') = tasks s /\
             error (state c') = Some match JS.body e with
                                     | Some b => b
                                     | None => message e
                                     end) /\
  (forall e, listed (world c) = Throw e ->
             tasks (state c') = tasks s /\
             error (state c') = Some match JS.body e with
                                     | Some b => b
                                     | None => message e
                                     end) /\
  (forall items, fetched = Return (VArr items) ->
                 forallb normalizable items = false ->
                 exists e, listed (world c) = Throw e).
Proof.
  cbv zeta. rewrite loadTasks_eq. cbv zeta. cbn [pending state].
  unfold listed.
  split; [reflexivity |].
  split; [destruct (let* items := _ in normalizeItems items); reflexivity |].
  split; [| split; [| split; [| split]]].
  - intros items F N. rewrite F. cbn [JS.bind normalizeItems].
    rewrite (mapItems_reexpressed items N). split; reflexivity.
  - intros v F N. rewrite F. cbn [JS.bind].
    destruct v; try (split; reflexivity). exfalso. eapply N. reflexivity.
  - intros e F. rewrite F. split; reflexivity.
  - intros e F. rewrite F. split; reflexivity.
  - intros items F N. rewrite F. cbn [JS.bind normalizeItems].
    apply mapItems_throws, N.
Qed.

(** The server holds two tasks: a refresh shows them, with their dates as
    they were (they are canonical).  The server answers 403 with a JSON
    body: [error] is the stringified body, [loading] is false and [tasks]
    is unchanged. *)
Lemma loadTasks_effects_witness :
  (let c' := loadTasks (host := utcHost) (mounted twoTasks) in
   tasks (state c') = [milk; report] /\ error (state c') = None /\
   loading (state c') = false) /\
  (let c' := loadTasks (host := utcHost) (mounted refusing) in
   error (state c') = Some (stringify (VObj [("message", VStr "forbidden")])) /\
   loading (state c') = false /\
   tasks (state c') = tasks (state (mounted refusing))).
Proof.
  cbv zeta. split.
  - destruct (loadTasks_effects utcHost (mounted twoTasks)) as (_ & L & S & _).
    destruct (S [VObj milk; VObj report] eq_refl eq_refl) as [T E].
    split; [rewrite T; reflexivity | split; [exact E | exact L]].
  - destruct (loadTasks_effects utcHost (mounted refusing)) as (_ & L & _ & _ & F & _).
    destruct (F (mkExn Error "API error" (Some 403)
                  (Some (stringify (VObj [("message", VStr "forbidden")])))) eq_refl)
      as [T E].
    split; [exact E | split; [exact L | exact T]].
Defined.

(** *** C6: list normalization *)

(** The callback of [loadTasks] throws on every item whose deadline is
    truthy and is no date: [toISOString] is called unguarded. *)
Lemma normalizeItem_invalid_deadline {host : Host} (o : obj) :
  truthy (get "deadline" o) = true ->
  newDate (get "deadline" o) = None ->
  normalizeItem (VObj o) = Throw (newError RangeError "Invalid time value").
Proof.
  intros T D. unfold normalizeItem. cbn [member JS.bind]. rewrite T, D. reflexivity.
Qed.

(** C6, at the failing input.  A fetched list with one task whose deadline
    is a number beyond the range of time values makes the normalization
    throw, on every host; so does, on a host whose fallback date grammar
    rejects it, a task whose deadline is the string [not-a-date].  The
    refresh then ends with [error] set and [tasks] as before. *)
Theorem normalization_throws_on_invalid_deadline :
  (forall host : Host,
     normalizeItems (VArr [VObj [("taskId", VStr "1"); ("title", VStr "Buy milk");
                                 ("deadline", VNum 8640000000000001)]])
     = Throw (newError RangeError "Invalid time value")) /\
  normalizeItems (host := utcHost)
    (VArr [VObj [("taskId", VStr "1"); ("title", VStr "Buy milk");
                 ("deadline", VStr "not-a-date")]])
  = Throw (newError RangeError "Invalid time value") /\
  (let w := mkWorld (signedIn "id-token")
              (listing (stringify
                 (VArr [VObj [("taskId", VStr "1"); ("title", VStr "Buy milk");
                              ("deadline", VStr "not-a-date")]]))) [] in
   let c' := loadTasks (host := utcHost) (mounted w) in
   error (state c') = Some "Invalid time value" /\ tasks (state c') = []).
Proof.
  split; [| split].
  - intros host. cbn [normalizeItems mapItems].
    rewrite normalizeItem_invalid_deadline; reflexivity.
  - vm_compute. reflexivity.
  - vm_compute. split; reflexivity.
Qed.

(** *** C7: the collection mirrors the last list fetch *)

(** C7.  Whatever sequence of events (mount, refresh, filter change, input,
    submit, cancel, toggle, edit, delete) the component goes through,
    [tasks] equals the normalized result of the last successful list fetch
    in the log of requests, and is empty before the first one: no operation
    changes the collection otherwise. *)
Theorem tasks_mirror_last_list_fetch (host : Host) (w : World) (l : list action) :
  log w = [] ->
  let c := run l (mounted w) in
  tasks (state c) = lastListed (log (world c)).
Proof.
  intros E c. apply (run_mirrors l), mounted_mirrors, E.
Qed.

(** Mount, complete the first task, delete the second: three list fetches
    among five requests, and the collection is what the last one returned. *)
Lemma tasks_mirror_last_list_fetch_witness :
  let c := run (host := utcHost) [Mount; Toggle milk; Delete report true]
             (mounted twoTasks) in
  tasks (state c) = lastListed (host := utcHost) (log (world c)) /\
  tasks (state c) = [milk; report] /\
  List.length (log (world c)) = 5%nat.
Proof.
  cbv zeta. split.
  - exact (tasks_mirror_last_list_fetch utcHost twoTasks
             [Mount; Toggle milk; Delete report true] eq_refl).
  - vm_compute. split; reflexivity.
Defined.

(** *** C8: toggle-complete *)

(** C8.  Toggling a task of the collection, with a session, issues a PUT to
    [/tasks/<taskId>] whose body is the full record: the task's [taskId] and
    [title], its [description] (the empty string when it has none), its
    [deadline], and as [status] ["Pending"] when the task's status is
    ["Completed"] and ["Completed"] when it is anything else. *)
Theorem toggle_sends_full_replacement (host : Host) (c : Ctl) (t : obj) (tok : string) :
  reachable c ->
  In t (tasks (state c)) ->
  token (world c) = Return tok ->
  exists sentStatus rest,
    let req :=
      mkRequest (API_URL ++ "/tasks/" ++ ToString (get "taskId" t)) "PUT" tok
        "application/json"
        (Some (JSON_stringify
                 (VObj [("taskId", get "taskId" t);
                        ("title", get "title" t);
                        ("description", or_else (get "description" t) (VStr ""));
                        ("deadline", get "deadline" t);
                        ("status", VStr sentStatus)]))) in
    log (world (onToggle t c))
    = (log (world c) ++ mkExchange req (server (world c) (log (world c)) req) :: rest)%list /\
    (get "status" t = VStr "Completed" -> sentStatus = "Pending") /\
    (get "status" t <> VStr "Completed" -> sentStatus = "Completed").
Proof.
  intros R I T.
  pose proof (reachable_normalized c t R I) as N.
  destruct (toggle_issues c t tok N T) as [rest L].
  exists (if strictEqStr (get "status" t) "Completed" then "Pending" else "Completed"), rest.
  cbv zeta. split; [exact L |].
  destruct (strictEqStr (get "status" t) "Completed") eqn:E.
  - split; [reflexivity |]. apply strictEqStr_eq in E. contradiction.
  - split; [| reflexivity]. intros C. apply strictEqStr_eq in C. congruence.
Qed.

Lemma mounted_twoTasks_reachable : reachable (host := utcHost) (run (host := utcHost) [Mount] (mounted twoTasks)).
Proof. exists twoTasks, [Mount]. split; reflexivity. Qed.

(** The pending task [milk] of the sample list is sent as completed. *)
Lemma toggle_sends_full_replacement_witness :
  exists rest,
    log (world (onToggle (host := utcHost) milk (run (host := utcHost) [Mount] (mounted twoTasks))))
    = (log (world (run (host := utcHost) [Mount] (mounted twoTasks)))
       ++ mkExchange
            (mkRequest (API_URL ++ "/tasks/1") "PUT" "id-token" "application/json"
               (Some (stringify
                        (VObj [("taskId", VStr "1"); ("title", VStr "Buy milk");
                               ("description", VStr "2 litres");
                               ("deadline", VStr "2024-03-10T07:30:00.000Z");
                               ("status", VStr "Completed")]))))
            (Return (mkResponse 200 "OK" ""))
       :: rest)%list.
Proof.
  destruct (toggle_sends_full_replacement utcHost (run (host := utcHost) [Mount] (mounted twoTasks)) milk
              "id-token" mounted_twoTasks_reachable (or_introl eq_refl) eq_refl)
    as (sentStatus & rest & L & _ & S).
  rewrite (S ltac:(discriminate)) in L. exists rest. exact L.
Defined.

(** *** C9: the converters and exceptions *)

(** [parseDateForAPI] never throws and maps the empty string and every
    string that is no date to [null]. *)
Lemma parseDateForAPI_sentinels {host : Host} :
  (forall v, exists r, parseDateForAPI v = Return r) /\
  parseDateForAPI (VStr "") = Return VNull /\
  (forall s, Date_parse s = None -> parseDateForAPI (VStr s) = Return VNull).
Proof.
  split; [exact parseDateForAPI_returns |].
  split; [reflexivity |].
  intros s D. apply parseDateForAPI_invalid. exact D.
Qed.

(** [formatDateForInput] maps the empty string and every string that is no
    date to the empty string, and returns whenever the local time of the
    timestamp is in the range of time values. *)
Lemma formatDateForInput_sentinels {host : Host} :
  formatDateForInput (VStr "") = Return "" /\
  (forall s, Date_parse s = None -> formatDateForInput (VStr s) = Return "") /\
  (forall v t, newDate v = Some t -> Z.abs (LocalTime t) <= maxTime ->
               exists r, formatDateForInput v = Return r).
Proof.
  split; [reflexivity |].
  split; [intros s D; apply formatDateForInput_invalid; exact D |].
  intros v t D R. destruct (truthy v) eqn:T.
  - rewrite (formatDateForInput_valid v t T D R). eauto.
  - rewrite (formatDateForInput_falsy v T). eauto.
Qed.

(** East of UTC the last time value has no local time in range. *)
Lemma formatDateForInput_throws_east {host : Host} :
  0 < zoneOffset maxTime true ->
  formatDateForInput (VStr "+275760-09-13T00:00:00.000Z")
  = Throw (newError RangeError "Invalid time value").
Proof.
  intros Z. apply formatDateForInput_overflow with (t := maxTime).
  - reflexivity.
  - reflexivity.
  - unfold LocalTime, LocalTZA, msPerMinute, maxTime in *. lia.
Qed.

(** C9, at the failing input.  On a host one hour east of UTC,
    [formatDateForInput] throws a RangeError for the last representable
    timestamp: the date it parses is valid, the date shifted to local time
    is not, and [toISOString] is called on it unchecked. *)
Theorem formatDateForInput_throws_at_range_end :
  formatDateForInput (host := plusOneHost) (VStr "+275760-09-13T00:00:00.000Z")
  = Throw (newError RangeError "Invalid time value").
Proof. vm_compute. reflexivity. Qed.

(** *** C10: wire deadlines are fixed points of [parseDateForAPI] *)

(** C10.  [parseDateForAPI] returns every ISO string of a time value in
    range unchanged; so it returns unchanged every non-null deadline that
    list normalization produced; and the PUT that toggling a task of the
    collection issues carries, as [deadline], the value stored in the
    collection. *)
Theorem wire_deadline_fixed_point (host : Host) :
  (forall tv, Z.abs tv <= maxTime ->
     parseDateForAPI (VStr (isoString tv)) = Return (VStr (isoString tv))) /\
  (forall item o, normalizeItem item = Return o -> get "deadline" o <> VNull ->
     parseDateForAPI (get "deadline" o) = Return (get "deadline" o)) /\
  (forall c t tok,
     reachable c -> In t (tasks (state c)) -> token (world c) = Return tok ->
     exists req body rest,
       log (world (onToggle t c))
       = (log (world c) ++ mkExchange req (server (world c) (log (world c)) req) :: rest)%list /\
       method req = "PUT" /\
       payload req = Some (JSON_stringify (VObj body)) /\
       get "deadline" body = get "deadline" t).
Proof.
  split; [exact parseDateForAPI_isoString |]. split.
  - intros item o N D. apply normalizeItem_normalized in N.
    destruct N as [N | (tv & R & N)]; [contradiction |].
    rewrite N. apply parseDateForAPI_isoString, R.
  - intros c t tok R I T.
    pose proof (reachable_normalized c t R I) as N.
    destruct (toggle_issues c t tok N T) as [rest L].
    eexists _, _, rest. split; [exact L |]. repeat split.
Qed.

(** The stored deadline of [milk] goes out as it is. *)
Lemma wire_deadline_fixed_point_witness :
  parseDateForAPI (host := utcHost) (get "deadline" milk) = Return (get "deadline" milk).
Proof.
  destruct (wire_deadline_fixed_point utcHost) as (_ & H & _).
  apply (H (VObj milk) milk); [reflexivity | discriminate].
Defined.

End Spec.

(** ** Further properties of the code *)

Module Extra.
Import Calendar CalendarFacts Text TextFacts DateObj App Forms Contract Shapes
  DateFacts ApiFacts Converters ControllerFacts NormalizationFacts Samples.

(** *** Invariants of every run *)

Section Invariants.
Context {host : Host}.

(** A property of the component that the setters other than [setTasks] and
    [setLoading], the three mutating calls and [loadTasks] keep is kept by
    every event. *)
Lemma step_invariant (Q : Ctl -> Prop) :
  (forall v c, Q c -> Q (setError v c)) ->
  (forall v c, Q c -> Q (setForm v c)) ->
  (forall v c, Q c -> Q (setEditing v c)) ->
  (forall v c, Q c -> Q (setFilter v c)) ->
  (forall body c, truthy body = true ->
     Q c -> Q (snd (awaiting (apiCall "/tasks" "POST" body) c))) ->
  (forall id body c, truthy body = true ->
     Q c -> Q (snd (awaiting (apiCall ("/tasks/" ++ id) "PUT" body) c))) ->
  (forall id c, Q c -> Q (snd (awaiting (apiCall ("/tasks/" ++ id) "DELETE" VNull) c))) ->
  (forall c, Q c -> Q (loadTasks c)) ->
  forall a c, Q c -> Q (step a c).
Proof.
  intros HE HF HD HFi HPost HPut HDel HLoad.
  assert (HC : forall c, Q c -> Q (createTask c)).
  { intros c q. unfold createTask.
    destruct (parseDateForAPI _) as [deadline | err]; [| apply HE, HE, q].
    match goal with |- context [awaiting (apiCall _ _ ?b) ?c0] =>
      pose proof (HPost b c0 eq_refl (HE None c q)) as M;
      destruct (awaiting (apiCall "/tasks" "POST" b) c0) as [r c2]
    end.
    cbn [snd] in M. destruct r; [apply HLoad, HF, M | apply HE, M]. }
  assert (HU : forall id patch c, Q c -> Q (updateTask id patch c)).
  { intros id patch c q. unfold updateTask.
    destruct (parseDateForAPI _) as [deadline | err]; [| apply HE, HE, q].
    match goal with |- context [awaiting (apiCall _ _ ?b) ?c0] =>
      pose proof (HPut (ToString id) b c0 eq_refl (HE None c q)) as M;
      destruct (awaiting (apiCall ("/tasks/" ++ ToString id) "PUT" b) c0) as [r c2]
    end.
    cbn [snd] in M. destruct r; [apply HLoad, HF, HD, M | apply HE, M]. }
  assert (HR : forall id c, Q c -> Q (removeTask id c)).
  { intros id c q. unfold removeTask.
    match goal with |- context [awaiting ?m ?c0] =>
      pose proof (HDel (ToString id) c0 (HE None c q)) as M;
      destruct (awaiting m c0) as [r c2]
    end.
    cbn [snd] in M. destruct r; [apply HLoad, M | apply HE, M]. }
  intros a c q. destruct a; cbn [step].
  - apply HLoad, q.
  - apply HLoad, q.
  - apply HFi, q.
  - apply HF, q.
  - unfold onSubmit. destruct (truthy _); [apply HU | apply HC]; exact q.
  - apply HF, HD, q.
  - apply HU, q.
  - unfold onEdit. apply (HD (get "taskId" t)) in q.
    destruct (if truthy _ then _ else _); [apply HF, q | exact q].
  - unfold onDelete. destruct confirmed; [apply HR |]; exact q.
Qed.

Lemma run_invariant (Q : Ctl -> Prop) :
  (forall a c, Q c -> Q (step a c)) -> forall l c, Q c -> Q (run l c).
Proof.
  intros H l. induction l as [| a l IH]; intros c q; [exact q |].
  apply IH, H, q.
Qed.

Lemma token_session (w w' : World) : session w' = session w -> token w' = token w.
Proof.
  intros E. unfold token, getIdToken, andThen, fetchAuthSession, throw, ret.
  rewrite E. destruct (session w) as [s | e]; [| reflexivity].
  destruct (lacksToken (sessionIdToken s)); [reflexivity |].
  destruct (sessionIdToken s) as [[] |]; reflexivity.
Qed.

Lemma apiCall_session (path verb : string) (body : value) (w : World) :
  session (snd (apiCall path verb body w)) = session w.
Proof. rewrite apiCall_eq. destruct (token w); reflexivity. Qed.

Lemma awaiting_world {A} (m : Api A) (c : Ctl) : world (snd (awaiting m c)) = snd (m (world c)).
Proof. unfold awaiting. destruct (m (world c)). reflexivity. Qed.

Lemma loadTasks_world (c : Ctl) :
  world (loadTasks c) = snd (apiCall "/tasks" "GET" VNull (world c)).
Proof. rewrite loadTasks_eq. reflexivity. Qed.

Lemma apiCall_tidy (path verb : string) (body : value) (w : World) :
  (forall tok, wellFormed tok (requestOf path verb body tok)) ->
  tidy w -> tidy (snd (apiCall path verb body w)).
Proof.
  intros S T. rewrite apiCall_eq.
  destruct (token w) as [tok | e] eqn:K; cbn [snd]; [| exact T].
  intros x I. unfold sent in I. cbn [log] in I. apply in_app_or in I.
  assert (K' : token (sent w (requestOf path verb body tok)) = Return tok)
    by (rewrite (token_session w); [exact K | reflexivity]).
  destruct I as [I | [<- | []]].
  - destruct (T x I) as (tok' & K2 & W). exists tok'. split; [| exact W].
    rewrite K'. rewrite K in K2. exact K2.
  - exists tok. split; [exact K' | apply S].
Qed.

Lemma wellFormed_GET (tok : string) : wellFormed tok (requestOf "/tasks" "GET" VNull tok).
Proof. repeat split. left. repeat split. Qed.

Lemma wellFormed_POST (tok : string) (body : value) :
  truthy body = true -> wellFormed tok (requestOf "/tasks" "POST" body tok).
Proof.
  intros T. repeat split. right. left. unfold requestOf. rewrite T. cbn.
  repeat split. discriminate.
Qed.

Lemma wellFormed_PUT (tok id : string) (body : value) :
  truthy body = true -> wellFormed tok (requestOf ("/tasks/" ++ id) "PUT" body tok).
Proof.
  intros T. repeat split. right. right. left. unfold requestOf. rewrite T. cbn.
  repeat split; [exists id; reflexivity | discriminate].
Qed.

Lemma wellFormed_DELETE (tok id : string) :
  wellFormed tok (requestOf ("/tasks/" ++ id) "DELETE" VNull tok).
Proof.
  repeat split. right. right. right. cbn. repeat split. exists id. reflexivity.
Qed.

Lemma orderly_call (w0 : World) (path verb : string) (body : value) (c : Ctl) :
  (forall tok, wellFormed tok (requestOf path verb body tok)) ->
  orderly w0 c -> orderly w0 (snd (awaiting (apiCall path verb body) c)).
Proof.
  intros S [E T]. unfold orderly. rewrite awaiting_world. split.
  - rewrite apiCall_session. exact E.
  - apply apiCall_tidy; assumption.
Qed.

Lemma orderly_step (w0 : World) (a : action) (c : Ctl) :
  orderly w0 c -> orderly w0 (step a c).
Proof.
  apply step_invariant; try (intros; assumption).
  - intros body c0 T. apply orderly_call. intros tok. apply wellFormed_POST, T.
  - intros id body c0 T. apply orderly_call. intros tok. apply wellFormed_PUT, T.
  - intros id c0. apply orderly_call. intros tok. apply wellFormed_DELETE.
  - intros c0 [E T]. unfold orderly. rewrite loadTasks_world. split.
    + rewrite apiCall_session. exact E.
    + apply apiCall_tidy; [intros tok; apply wellFormed_GET | exact T].
Qed.

Lemma loading_step (a : action) (c : Ctl) :
  loading (state c) = false -> loading (state (step a c)) = false.
Proof.
  apply (step_invariant (fun c => loading (state c) = false));
    try (intros; assumption);
    try (intros; rewrite awaiting_state; assumption).
  intros c0 _. rewrite loadTasks_eq. cbv zeta. cbn [state].
  destruct (listed (world c0)); reflexivity.
Qed.

End Invariants.

(** X1.  Every request the component has issued, after any sequence of
    events from the first render, carries the token of the session as
    [Authorization] and [application/json] as [Content-Type], and is one of:
    [GET /tasks] without body, [POST /tasks] with a body, [PUT /tasks/<id>]
    with a body, [DELETE /tasks/<id>] without body.  In particular nothing
    is ever sent without a token. *)
Theorem requests_well_formed (host : Host) (w : World) (l : list action) (x : Exchange) :
  log w = [] ->
  In x (log (world (run l (mounted w)))) ->
  exists tok, token w = Return tok /\ wellFormed tok (request x).
Proof.
  intros E I.
  assert (O : orderly w (run l (mounted w))).
  { apply (run_invariant (orderly w)); [intros a c; apply orderly_step |].
    split; [reflexivity |]. intros y J. cbn in J. rewrite E in J. destruct J. }
  destruct O as [S T]. destruct (T x I) as (tok & K & W).
  exists tok. split; [| exact W]. rewrite <- (token_session w _ S). exact K.
Qed.

(** The second request of mount-then-toggle is a well-formed PUT. *)
Lemma requests_well_formed_witness :
  exists x, nth_error (log (world (run (host := utcHost) [Mount; Toggle milk]
                                      (mounted twoTasks)))) 1 = Some x /\
            method (request x) = "PUT" /\
            wellFormed "id-token" (request x).
Proof.
  eexists. split; [vm_compute; reflexivity |]. split; [reflexivity |].
  destruct (requests_well_formed utcHost twoTasks [Mount; Toggle milk]
              (mkExchange
                 (mkRequest (API_URL ++ "/tasks/1") "PUT" "id-token" "application/json"
                    (Some (stringify
                             (VObj [("taskId", VStr "1"); ("title", VStr "Buy milk");
                                    ("description", VStr "2 litres");
                                    ("deadline", VStr "2024-03-10T07:30:00.000Z");
                                    ("status", VStr "Completed")]))))
                 (Return (mkResponse 200 "OK" "")))
              eq_refl) as (tok & K & W).
  - vm_compute. right. left. reflexivity.
  - vm_compute in K. injection K as <-. exact W.
Defined.

(** X2.  After any sequence of events from the first render, each run to
    completion, the component is not loading: every refresh, successful or
    not, ends with [loading] false, and nothing else sets it. *)
Theorem never_left_loading (host : Host) (w : World) (l : list action) :
  loading (state (run l (mounted w))) = false.
Proof.
  apply (run_invariant (fun c => loading (state c) = false));
    [intros a c; apply loading_step | reflexivity].
Qed.

(** *** The three mutating operations *)

(** The deadline a mutation sends: [parseDateForAPI(x) || null] is [null] or
    the ISO string of a time value in range. *)
Lemma sent_deadline {host : Host} (v : value) :
  exists d, parseDateForAPI v = Return d /\
            (or_else d VNull = VNull \/
             exists tv, Z.abs tv <= maxTime /\ or_else d VNull = VStr (isoString tv)).
Proof.
  destruct (parseDateForAPI_total v) as [H | (t & R & H)]; rewrite H; eexists;
    (split; [reflexivity |]).
  - left. reflexivity.
  - right. exists t. split; [exact R |]. unfold or_else. rewrite isoString_truthy.
    reflexivity.
Qed.

(** X3.  With a session, [createTask] sends [POST /tasks] with the body
    [{title, description, deadline}] taken from the form: the title as it
    is, the description or the empty string when the form has none, and as
    deadline what [parseDateForAPI] returns for the form's deadline, or
    [null]; that is [null] or a canonical ISO string, never the text of an
    invalid date.  When the call fails, only [error] changes (the form stays
    filled in) and no refresh is issued; when it succeeds, the form is reset
    to the empty task and the list is refreshed. *)
Theorem createTask_outcome (host : Host) (c : Ctl) (tok : string) :
  token (world c) = Return tok ->
  let s := state c in
  exists parsed,
    parseDateForAPI (get "deadline" (form s)) = Return parsed /\
    (or_else parsed VNull = VNull \/
     exists tv, Z.abs tv <= maxTime /\ or_else parsed VNull = VStr (isoString tv)) /\
    let req :=
      mkRequest (API_URL ++ "/tasks") "POST" tok "application/json"
        (Some (JSON_stringify
                 (VObj [("title", get "title" (form s));
                        ("description", or_else (get "description" (form s)) (VStr ""));
                        ("deadline", or_else parsed VNull)]))) in
    let out := server (world c) (log (world c)) req in
    (forall e, settle out = Throw e ->
       state (createTask c) = withError (Some (shown e)) s /\
       world (createTask c) = sent (world c) req) /\
    (forall v, settle out = Return v ->
       createTask c
       = loadTasks (mkCtl (mkState (tasks s) (loading s) (editing s) emptyTask
                             (filter s) None)
                      (sent (world c) req)
                      (pending c ++ [withError None s]))).
Proof.
  intros T s.
  destruct (sent_deadline (get "deadline" (form s))) as (d & D & Hd).
  exists d. split; [exact D |]. split; [exact Hd |]. cbv zeta.
  unfold createTask. fold s. rewrite D, awaiting_apiCall.
  cbn [setError update world state pending]. rewrite T. cbv zeta.
  unfold requestOf. cbn [truthy]. split.
  - intros e ->. split; reflexivity.
  - intros v ->. reflexivity.
Qed.

(** A title and a deadline typed in, against a server that refuses: the
    request carries the deadline as an ISO string, the form survives and
    [error] shows the refusal. *)
Lemma createTask_outcome_witness :
  let c := onInput "deadline" "2024-03-09T14:30"
             (onInput "title" "Buy bread" (mounted refusing)) in
  let c' := createTask (host := utcHost) c in
  map (fun x => payload (request x)) (log (world c'))
  = [Some (stringify (VObj [("title", VStr "Buy bread"); ("description", VStr "");
                            ("deadline", VStr "2024-03-09T14:30:00.000Z")]))] /\
  form (state c') = form (state c) /\
  error (state c') = Some (stringify (VObj [("message", VStr "forbidden")])).
Proof.
  cbv zeta.
  destruct (createTask_outcome utcHost
              (onInput "deadline" "2024-03-09T14:30"
                 (onInput "title" "Buy bread" (mounted refusing)))
              "id-token" eq_refl) as (d & D & _ & F & _).
  vm_compute in D. injection D as <-.
  destruct (F (mkExn Error "API error" (Some 403)
                 (Some (stringify (VObj [("message", VStr "forbidden")])))) eq_refl)
    as [S W].
  rewrite S, W. repeat split.
Defined.

(** X4.  With a session, [updateTask] sends [PUT /tasks/<taskId>] with the
    full record [{taskId, title, description, deadline, status}] of the
    patch: the title as it is, description defaulting to the empty string,
    status to ["Pending"], and as deadline what [parseDateForAPI] returns
    for the patch's deadline, or [null]; that is [null] or a canonical ISO
    string.  When the call fails, only [error] changes (the edit target and
    the form stay) and no refresh is issued; when it succeeds, the edit
    target is cleared, the form is reset and the list is refreshed. *)
Theorem updateTask_outcome (host : Host) (taskId : value) (patch : obj) (c : Ctl)
    (tok : string) :
  token (world c) = Return tok ->
  let s := state c in
  exists parsed,
    parseDateForAPI (get "deadline" patch) = Return parsed /\
    (or_else parsed VNull = VNull \/
     exists tv, Z.abs tv <= maxTime /\ or_else parsed VNull = VStr (isoString tv)) /\
    let req :=
      mkRequest (API_URL ++ "/tasks/" ++ ToString taskId) "PUT" tok "application/json"
        (Some (JSON_stringify
                 (VObj [("taskId", taskId);
                        ("title", get "title" patch);
                        ("description", or_else (get "description" patch) (VStr ""));
                        ("deadline", or_else parsed VNull);
                        ("status", or_else (get "status" patch) (VStr "Pending"))]))) in
    let out := server (world c) (log (world c)) req in
    (forall e, settle out = Throw e ->
       state (updateTask taskId patch c) = withError (Some (shown e)) s /\
       world (updateTask taskId patch c) = sent (world c) req) /\
    (forall v, settle out = Return v ->
       updateTask taskId patch c
       = loadTasks (mkCtl (mkState (tasks s) (loading s) VNull emptyTask (filter s) None)
                      (sent (world c) req)
                      (pending c ++ [withError None s]))).
Proof.
  intros T s.
  destruct (sent_deadline (get "deadline" patch)) as (d & D & Hd).
  exists d. split; [exact D |]. split; [exact Hd |]. cbv zeta.
  unfold updateTask. rewrite D, awaiting_apiCall.
  cbn [setError update world state pending]. rewrite T. cbv zeta.
  unfold requestOf, updateBody. cbn [truthy]. fold s. split.
  - intros e ->. split; reflexivity.
  - intros v ->. reflexivity.
Qed.

(** Saving the edit of [milk] against a server that refuses: the request
    carries the deadline of the form as an ISO string, and the edit target
    and the form stay. *)
Lemma updateTask_outcome_witness :
  let c := onEdit (host := utcHost) milk (mounted refusing) in
  let c' := updateTask (host := utcHost) (editing (state c)) (form (state c)) c in
  map (fun x => payload (request x)) (log (world c'))
  = [Some (stringify (VObj [("taskId", VStr "1"); ("title", VStr "Buy milk");
                            ("description", VStr "2 litres");
                            ("deadline", VStr "2024-03-10T07:30:00.000Z");
                            ("status", VStr "Pending")]))] /\
  editing (state c') = VStr "1" /\ form (state c') = form (state c).
Proof.
  cbv zeta.
  destruct (updateTask_outcome utcHost
              (editing (state (onEdit (host := utcHost) milk (mounted refusing))))
              (form (state (onEdit (host := utcHost) milk (mounted refusing))))
              (onEdit (host := utcHost) milk (mounted refusing))
              "id-token" eq_refl) as (d & D & _ & F & _).
  vm_compute in D. injection D as <-.
  destruct (F (mkExn Error "API error" (Some 403)
                 (Some (stringify (VObj [("message", VStr "forbidden")])))) eq_refl)
    as [S W].
  rewrite S, W. repeat split.
Defined.

(** X5.  With a session, [removeTask] sends [DELETE /tasks/<taskId>] without
    a body.  When the call fails, only [error] changes and no refresh is
    issued; when it succeeds, the list is refreshed, with everything but
    [error] as it was. *)
Theorem removeTask_outcome (host : Host) (taskId : value) (c : Ctl) (tok : string) :
  token (world c) = Return tok ->
  let s := state c in
  let req :=
    mkRequest (API_URL ++ "/tasks/" ++ ToString taskId) "DELETE" tok
      "application/json" None in
  let out := server (world c) (log (world c)) req in
  (forall e, settle out = Throw e ->
     state (removeTask taskId c) = withError (Some (shown e)) s /\
     world (removeTask taskId c) = sent (world c) req) /\
  (forall v, settle out = Return v ->
     removeTask taskId c
     = loadTasks (mkCtl (withError None s) (sent (world c) req)
                    (pending c ++ [withError None s]))).
Proof.
  intros T s. cbv zeta.
  unfold removeTask. rewrite awaiting_apiCall.
  cbn [setError update world state pending]. rewrite T. cbv zeta.
  unfold requestOf. cbn [truthy]. fold s. split.
  - intros e ->. split; reflexivity.
  - intros v ->. reflexivity.
Qed.

(** Deleting on the sample server: the DELETE, then the refresh. *)
Lemma removeTask_outcome_witness :
  map (fun x => method (request x))
      (log (world (removeTask (host := utcHost) (VStr "2") (mounted twoTasks))))
  = ["DELETE"; "GET"].
Proof.
  destruct (removeTask_outcome utcHost (VStr "2") (mounted twoTasks) "id-token" eq_refl)
    as [_ S].
  rewrite (S VNull eq_refl). vm_compute. reflexivity.
Defined.

(** *** List normalization *)


(** X6.  When list normalization succeeds, it returns as many tasks as it
    was given, in the same order, and each task has every property of the
    fetched item unchanged except [deadline], which is [null] for a falsy
    deadline and the ISO string of the date it denotes otherwise. *)
Theorem normalization_keeps_fields (host : Host) (items : list value) (os : list obj) :
  normalizeItems (VArr items) = Return os ->
  Forall2 (fun item o =>
             exists d, member item "deadline" = Return d /\
                       get "deadline" o = canonicalDeadline d /\
                       forall k, k <> "deadline" -> get k o = get k (ownProps item))
          items os.
Proof.
  cbn [normalizeItems]. revert os.
  induction items as [| item rest IH]; intros os; cbn [mapItems].
  - intros H. injection H as <-. constructor.
  - destruct (normalizeItem item) as [o | e] eqn:N; cbn [JS.bind]; [| discriminate].
    destruct (mapItems rest) as [os' | e]; cbn [JS.bind]; [| discriminate].
    intros H. injection H as <-. constructor; [| apply IH; reflexivity].
    apply normalizeItem_inv in N. destruct N as (d & M & _ & ->).
    exists d. split; [exact M |]. split; [apply get_set_same |].
    intros k K. apply get_set_other. apply String.eqb_neq. congruence.
Qed.

(** The title of a fetched task survives; its date-only deadline is
    rewritten in full. *)
Lemma normalization_keeps_fields_witness :
  Forall2 (fun item o =>
             exists d, member item "deadline" = Return d /\
                       get "deadline" o = canonicalDeadline (host := utcHost) d /\
                       forall k, k <> "deadline" -> get k o = get k (ownProps item))
          [VObj [("title", VStr "Buy milk"); ("deadline", VStr "2024-03-10")]]
          [[("title", VStr "Buy milk"); ("deadline", VStr "2024-03-10T00:00:00.000Z")]].
Proof.
  apply (normalization_keeps_fields utcHost). vm_compute. reflexivity.
Defined.

(** X7.  List normalization is idempotent: normalizing the tasks it returned
    gives them back unchanged, so a refresh that fetches what the client
    already holds leaves the collection as it is. *)
Theorem normalization_idempotent (host : Host) (items : value) (os : list obj) :
  normalizeItems items = Return os ->
  normalizeItems (VArr (map VObj os)) = Return os.
Proof.
  intros H. cbn [normalizeItems]. apply mapItems_fixed.
  eapply normalizeItems_normalized. exact H.
Qed.

Lemma normalization_idempotent_witness :
  normalizeItems (host := utcHost) (VArr (map VObj [milk; report])) = Return [milk; report].
Proof.
  apply (normalization_idempotent utcHost (VArr [VObj milk; VObj report])).
  vm_compute. reflexivity.
Defined.

(** X8.  List normalization of an array succeeds exactly when no item is
    [null] or [undefined] and every truthy deadline denotes a date; anything
    that is not an array normalizes to the empty list. *)
Theorem normalization_succeeds_exactly (host : Host) :
  (forall items,
     (exists os, normalizeItems (VArr items) = Return os)
     <-> forallb normalizable items = true) /\
  (forall v, (forall l, v <> VArr l) -> normalizeItems v = Return []).
Proof.
  split.
  - intros items. cbn [normalizeItems].
    induction items as [| item rest IH]; cbn [mapItems forallb].
    + split; [reflexivity | eauto].
    + rewrite andb_true_iff, <- IH. split.
      * intros [os H].
        destruct (normalizeItem item) as [o | e] eqn:N; cbn [JS.bind] in H;
          [| discriminate].
        destruct (mapItems rest) as [os' | e]; cbn [JS.bind] in H; [| discriminate].
        apply normalizeItem_inv in N. destruct N as (d & _ & N & _). eauto.
      * intros [N [os' R]]. apply normalizeItem_returns in N. destruct N as [o N].
        rewrite N, R. cbn [JS.bind]. eauto.
  - intros v N. destruct v; try reflexivity. exfalso. eapply N. reflexivity.
Qed.

(** An empty body gives [null], and [null] normalizes to no tasks. *)
Lemma normalization_succeeds_exactly_witness :
  normalizeItems (host := utcHost) VNull = Return [] /\
  exists os, normalizeItems (host := utcHost) (VArr [VObj report; VNum 7]) = Return os.
Proof.
  destruct (normalization_succeeds_exactly utcHost) as [A B].
  split; [apply B; discriminate | apply A; reflexivity].
Defined.

(** *** The converters *)


(** The time value with its seconds and milliseconds dropped. *)
Lemma minute_of_time (t : Z) :
  MakeDate (MakeDay (YearFromTime t) (MonthFromTime t) (DateFromTime t))
           (MakeTime (HourFromTime t) (MinFromTime t) 0 0)
  = t - t mod msPerMinute.
Proof.
  rewrite MakeDay_of_time.
  unfold MakeDate, MakeTime, Day, HourFromTime, MinFromTime, msPerDay, msPerHour,
    msPerMinute, msPerSecond. zdiv.
Qed.

Lemma year_range_time (t : Z) :
  0 <= YearFromTime t <= 9999 -> Z.abs t <= 300000000000000.
Proof.
  unfold YearFromTime. intros H.
  pose proof (YearFromDay_spec (Day t)) as S.
  revert H S. generalize (YearFromDay (Day t)). intros y H S.
  assert (D : -719528 <= Day t <= 2932897)
    by (unfold DayFromYear in S; zdiv).
  unfold Day, msPerDay in D. zdiv.
Qed.

Section Editable.
Context {host : Host}.

Lemma formatDateForInput_editable (v : value) (t : Z) :
  truthy v = true -> newDate v = Some t ->
  0 <= YearFromTime (LocalTime t) <= 9999 ->
  formatDateForInput v = Return (editableOf t).
Proof.
  intros T D Y.
  rewrite (formatDateForInput_valid v t T D)
    by (pose proof (year_range_time _ Y); unfold maxTime; lia).
  rewrite isoString_fullForm, slice_fullForm by exact Y. reflexivity.
Qed.


Lemma parseDateForAPI_editable (t : Z) :
  0 <= YearFromTime (LocalTime t) <= 9999 ->
  zoneOffset (LocalTime t - LocalTime t mod msPerMinute) false = zoneOffset t true ->
  parseDateForAPI (VStr (editableOf t))
  = Return (VStr (isoString (t - t mod msPerMinute))).
Proof.
  intros Y Z.
  pose proof (MonthFromTime_range (LocalTime t)) as Bm.
  pose proof (DateFromTime_range (LocalTime t)) as Bd.
  pose proof (clock_ranges (LocalTime t)) as (Bh & Bmi & _ & _).
  assert (P : Date_parse (editableOf t) = Some (t - t mod msPerMinute)).
  { unfold editableOf. cbv zeta.
    rewrite Date_parse_minuteForm;
      try (replace (MonthFromTime (LocalTime t) + 1 - 1)
             with (MonthFromTime (LocalTime t)) by lia; lia); try lia.
    f_equal. unfold UTC, wallTime.
    cbn [isoYear isoMonth isoDay isoHour isoMinute isoSecond isoMs].
    replace (MonthFromTime (LocalTime t) + 1 - 1) with (MonthFromTime (LocalTime t)) by lia.
    rewrite minute_of_time. unfold LocalTZA. rewrite Z.
    unfold LocalTime, LocalTZA, msPerMinute. zdiv. }
  apply parseDateForAPI_valid; [| exact P].
  unfold editableOf, minuteForm. reflexivity.
Qed.

End Editable.

(** X9.  [parseDateForAPI] is idempotent: what it returns ([null] or an ISO
    string) it returns again unchanged. *)
Theorem parseDateForAPI_idempotent (host : Host) (v r : value) :
  parseDateForAPI v = Return r -> parseDateForAPI r = Return r.
Proof.
  intros H. destruct (parseDateForAPI_total v) as [N | (t & R & N)];
    rewrite N in H; injection H as <-.
  - reflexivity.
  - apply parseDateForAPI_isoString, R.
Qed.

Lemma parseDateForAPI_idempotent_witness :
  parseDateForAPI (host := newYorkHost) (VStr "2024-03-09T19:30:00.000Z")
  = Return (VStr "2024-03-09T19:30:00.000Z").
Proof.
  apply (parseDateForAPI_idempotent newYorkHost (VStr "2024-03-09T14:30")).
  vm_compute. reflexivity.
Defined.

(** X10.  [formatDateForInput] throws exactly when its argument is truthy
    and denotes a date whose local time is outside the range of time
    values; the error is then the RangeError of [toISOString]. *)
Theorem formatDateForInput_throws_exactly (host : Host) (v : value) (e : exn) :
  formatDateForInput v = Throw e
  <-> truthy v = true /\
      (exists t, newDate v = Some t /\ maxTime < Z.abs (LocalTime t)) /\
      e = newError RangeError "Invalid time value".
Proof.
  split.
  - intros H. destruct (truthy v) eqn:T;
      [| rewrite (formatDateForInput_falsy v T) in H; discriminate].
    destruct (newDate v) as [t |] eqn:D;
      [| rewrite (formatDateForInput_invalid v D) in H; discriminate].
    destruct (Z_le_gt_dec (Z.abs (LocalTime t)) maxTime) as [L | G].
    + rewrite (formatDateForInput_valid v t T D L) in H. discriminate.
    + assert (G' : maxTime < Z.abs (LocalTime t)) by lia.
      rewrite (formatDateForInput_overflow v t T D G') in H. injection H as <-.
      split; [reflexivity |]. split; [exists t; split; [reflexivity | exact G'] | reflexivity].
  - intros (T & (t & D & G) & ->). apply (formatDateForInput_overflow v t T D G).
Qed.



(** X12.  Wire to editable and back drops the seconds of the local time:
    for a timestamp in range whose local year is in 0..9999, when the zone
    offset under which the local minute is read back is the offset in force
    at the timestamp, [parseDateForAPI] of [formatDateForInput] of the
    timestamp is the timestamp less the seconds and milliseconds its local
    time shows past the minute. *)
Theorem wire_roundtrip_drops_seconds (host : Host) (t : Z) :
  Z.abs t <= maxTime ->
  0 <= YearFromTime (LocalTime t) <= 9999 ->
  zoneOffset (LocalTime t - LocalTime t mod msPerMinute) false = zoneOffset t true ->
  exists s,
    formatDateForInput (VStr (isoString t)) = Return s /\
    parseDateForAPI (VStr s)
    = Return (VStr (isoString (t - LocalTime t mod msPerMinute))).
Proof.
  intros R Y Z. exists (editableOf t). split.
  - apply formatDateForInput_editable; [apply isoString_truthy | | exact Y].
    cbn [newDate]. apply Date_parse_isoString, R.
  - replace (LocalTime t mod msPerMinute) with (t mod msPerMinute)
      by (unfold LocalTime, LocalTZA, msPerMinute; zdiv).
    apply parseDateForAPI_editable; assumption.
Qed.

Lemma wire_roundtrip_drops_seconds_witness :
  exists s,
    formatDateForInput (host := newYorkHost) (VStr "2024-07-04T16:05:59.999Z") = Return s /\
    parseDateForAPI (host := newYorkHost) (VStr s)
    = Return (VStr "2024-07-04T16:05:00.000Z").
Proof.
  exact (wire_roundtrip_drops_seconds newYorkHost 1720109159999
           ltac:(vm_compute; discriminate)
           ltac:(vm_compute; split; discriminate) eq_refl).
Defined.

(** *** Editing and submitting *)

Lemma or_else_twice (x y : value) : or_else (or_else x y) y = or_else x y.
Proof.
  unfold or_else. destruct (truthy x) eqn:T; [rewrite T; reflexivity |].
  destruct (truthy y); reflexivity.
Qed.

Section Submit.
Context {host : Host}.

Lemma createTask_request (c : Ctl) (tok : string) (deadline : value) :
  token (world c) = Return tok ->
  parseDateForAPI (get "deadline" (form (state c))) = Return deadline ->
  let req := requestOf "/tasks" "POST"
               (VObj [("title", get "title" (form (state c)));
                      ("description",
                        or_else (get "description" (form (state c))) (VStr ""));
                      ("deadline", or_else deadline VNull)]) tok in
  exists rest,
    log (world (createTask c))
    = (log (world c)
         ++ mkExchange req (server (world c) (log (world c)) req) :: rest)%list.
Proof.
  intros T D req. unfold createTask. rewrite D, awaiting_apiCall.
  cbn [setError update world state pending]. rewrite T. cbv zeta. fold req.
  destruct (settle _) as [v | e].
  - match goal with |- context [loadTasks ?c0] =>
      destruct (loadTasks_log c0) as [rest R]; rewrite R
    end.
    cbn [setForm update world sent log].
    exists rest. rewrite <- app_assoc. reflexivity.
  - cbn [setError update world sent log]. exists []. reflexivity.
Qed.

Lemma onEdit_eq (t : obj) (c : Ctl) (s : string) :
  (if truthy (get "deadline" t) then formatDateForInput (get "deadline" t)
   else Return "") = Return s ->
  onEdit t c
  = mkCtl (mkState (tasks (state c)) (loading (state c)) (get "taskId" t)
             (editForm t s) (filter (state c)) (error (state c)))
      (world c) (pending c).
Proof. intros H. unfold onEdit. rewrite H. reflexivity. Qed.

End Submit.

(** X13.  Edit then Submit on a task with a truthy [taskId], with a session:
    the request issued is [PUT /tasks/<taskId>] with the task's [taskId],
    its title and description (the empty string for none), its status
    (["Pending"] for none) and, as deadline, what [parseDateForAPI] makes of
    the editable deadline [formatDateForInput] produced ([null] when that
    is [null]). *)
Theorem edit_then_submit_updates (host : Host) (t : obj) (c : Ctl)
    (tok s : string) (d : value) :
  token (world c) = Return tok ->
  truthy (get "taskId" t) = true ->
  (if truthy (get "deadline" t) then formatDateForInput (get "deadline" t)
   else Return "") = Return s ->
  parseDateForAPI (VStr s) = Return d ->
  let req :=
    mkRequest (API_URL ++ "/tasks/" ++ ToString (get "taskId" t)) "PUT" tok
      "application/json"
      (Some (JSON_stringify
               (VObj [("taskId", get "taskId" t);
                      ("title", or_else (get "title" t) (VStr ""));
                      ("description", or_else (get "description" t) (VStr ""));
                      ("deadline", or_else d VNull);
                      ("status", or_else (get "status" t) (VStr "Pending"))]))) in
  exists rest,
    log (world (onSubmit (onEdit t c)))
    = (log (world c) ++ mkExchange req (server (world c) (log (world c)) req) :: rest)%list.
Proof.
  intros T I F P req. rewrite (onEdit_eq t c s F).
  unfold onSubmit. cbn [state editing form]. rewrite I.
  destruct (updateTask_request (get "taskId" t) (editForm t s)
              (mkCtl (mkState (tasks (state c)) (loading (state c)) (get "taskId" t)
                        (editForm t s) (filter (state c)) (error (state c)))
                 (world c) (pending c)) tok d T P) as [rest R].
  exists rest. rewrite R. cbn [world].
  unfold requestOf, updateBody, editForm. cbn [truthy get String.eqb Ascii.eqb Bool.eqb].
  rewrite !or_else_twice. reflexivity.
Qed.

(** Editing [milk] in New York and saving it unchanged resends it. *)
Lemma edit_then_submit_updates_witness :
  exists rest,
    log (world (onSubmit (host := newYorkHost)
                  (onEdit (host := newYorkHost) milk (mounted twoTasks))))
    = mkExchange
        (mkRequest (API_URL ++ "/tasks/1") "PUT" "id-token" "application/json"
           (Some (stringify
                    (VObj [("taskId", VStr "1"); ("title", VStr "Buy milk");
                           ("description", VStr "2 litres");
                           ("deadline", VStr "2024-03-10T07:30:00.000Z");
                           ("status", VStr "Pending")]))))
        (Return (mkResponse 200 "OK" ""))
      :: rest.
Proof.
  exact (edit_then_submit_updates newYorkHost milk (mounted twoTasks) "id-token"
           "2024-03-10T03:30" (VStr "2024-03-10T07:30:00.000Z")
           eq_refl eq_refl eq_refl eq_refl).
Defined.

(** X14.  Edit then Submit on a task whose [taskId] is falsy (absent, [0],
    the empty string): the form's [onSubmit] takes the create branch, so the
    request issued is [POST /tasks] with the title, description and deadline
    of the form, and no PUT. *)
Theorem edit_then_submit_without_id_creates (host : Host) (t : obj) (c : Ctl)
    (tok s : string) (d : value) :
  token (world c) = Return tok ->
  truthy (get "taskId" t) = false ->
  (if truthy (get "deadline" t) then formatDateForInput (get "deadline" t)
   else Return "") = Return s ->
  parseDateForAPI (VStr s) = Return d ->
  let req :=
    mkRequest (API_URL ++ "/tasks") "POST" tok "application/json"
      (Some (JSON_stringify
               (VObj [("title", or_else (get "title" t) (VStr ""));
                      ("description", or_else (get "description" t) (VStr ""));
                      ("deadline", or_else d VNull)]))) in
  exists rest,
    log (world (onSubmit (onEdit t c)))
    = (log (world c) ++ mkExchange req (server (world c) (log (world c)) req) :: rest)%list.
Proof.
  intros T I F P req. rewrite (onEdit_eq t c s F).
  unfold onSubmit. cbn [state editing form]. rewrite I.
  destruct (createTask_request
              (mkCtl (mkState (tasks (state c)) (loading (state c)) (get "taskId" t)
                        (editForm t s) (filter (state c)) (error (state c)))
                 (world c) (pending c)) tok d T P) as [rest R].
  exists rest. rewrite R. cbn [world state form].
  unfold requestOf, editForm. cbn [truthy get String.eqb Ascii.eqb Bool.eqb].
  rewrite !or_else_twice. reflexivity.
Qed.

(** A task the server numbered 0: saving the edit creates a second task. *)
Lemma edit_then_submit_without_id_creates_witness :
  exists rest,
    map (fun x => method (request x))
        (log (world (onSubmit (host := utcHost)
                       (onEdit (host := utcHost)
                          [("taskId", VNum 0); ("title", VStr "Call home")]
                          (mounted twoTasks)))))
    = "POST" :: rest.
Proof.
  destruct (edit_then_submit_without_id_creates utcHost
              [("taskId", VNum 0); ("title", VStr "Call home")]
              (mounted twoTasks) "id-token" "" VNull eq_refl eq_refl eq_refl eq_refl)
    as [rest R].
  rewrite R. eexists. reflexivity.
Defined.

(** *** The filter, the inputs, the token *)

Lemma filter_twice {A} (p q : A -> bool) (l : list A) :
  List.filter q (List.filter p l) = List.filter (fun x => p x && q x) l.
Proof.
  induction l as [| x l IH]; cbn [List.filter]; [reflexivity |].
  destruct (p x); cbn [List.filter andb]; [destruct (q x) |]; rewrite IH; reflexivity.
Qed.

Lemma filter_none {A} (p : A -> bool) (l : list A) :
  (forall x, p x = false) -> List.filter p l = [].
Proof.
  intros H. induction l as [| x l IH]; cbn [List.filter]; [reflexivity |].
  rewrite H. exact IH.
Qed.

Lemma filter_same {A} (p q : A -> bool) (l : list A) :
  (forall x, p x = q x) -> List.filter p l = List.filter q l.
Proof.
  intros H. induction l as [| x l IH]; cbn [List.filter]; [reflexivity |].
  rewrite H, IH. reflexivity.
Qed.

(** X15.  The filter is idempotent, two different status filters never show
    the same task, a task without a truthy status is shown under
    ["Pending"], and the visible list is never longer than the collection. *)
Theorem filter_laws (T : list obj) (f g : string) :
  visibleTasks f (visibleTasks f T) = visibleTasks f T /\
  (f <> "All" -> g <> "All" -> f <> g -> visibleTasks g (visibleTasks f T) = []) /\
  (forall t, In t T -> truthy (get "status" t) = false ->
             In t (visibleTasks "Pending" T)) /\
  (List.length (visibleTasks f T) <= List.length T)%nat.
Proof.
  repeat split.
  - unfold visibleTasks. destruct (String.eqb f "All"); [reflexivity |].
    rewrite filter_twice. apply filter_same. intros t.
    destruct (strictEqStr _ f); reflexivity.
  - intros F G N. rewrite (visibleTasks_filter f) by exact F.
    rewrite (visibleTasks_filter g) by exact G.
    rewrite filter_twice. apply filter_none. intros t.
    destruct (strictEqStr (effectiveStatus t) f) eqn:E; [| reflexivity].
    apply strictEqStr_eq in E. cbn [andb].
    destruct (strictEqStr (effectiveStatus t) g) eqn:E'; [| reflexivity].
    apply strictEqStr_eq in E'. congruence.
  - intros t I S. rewrite visibleTasks_filter by discriminate.
    apply filter_In. split; [exact I |].
    unfold effectiveStatus, or_else. rewrite S. reflexivity.
  - unfold visibleTasks. destruct (String.eqb f "All"); [apply le_n |].
    apply filter_length_le.
Qed.

(** A task without status sits under ["Pending"] and not under ["Completed"]. *)
Lemma filter_laws_witness :
  visibleTasks "Pending" [[("title", VStr "Call home")]; report]
  = [[("title", VStr "Call home")]] /\
  visibleTasks "Completed" (visibleTasks "Pending" [[("title", VStr "Call home")]; report])
  = [].
Proof.
  destruct (filter_laws [[("title", VStr "Call home")]; report] "Pending" "Completed")
    as (_ & D & _).
  split; [reflexivity | apply D; discriminate].
Defined.

(** X16.  Typing into an input changes that one field of the form: the
    field reads as the text typed, every other field reads as before, and
    the collection, the edit target, the filter, the error and the world are
    untouched (no request). *)
Theorem input_changes_one_field (field text : string) (c : Ctl) :
  let c' := onInput field text c in
  get field (form (state c')) = VStr text /\
  (forall k, k <> field -> get k (form (state c')) = get k (form (state c))) /\
  tasks (state c') = tasks (state c) /\ editing (state c') = editing (state c) /\
  filter (state c') = filter (state c) /\ error (state c') = error (state c) /\
  world c' = world c.
Proof.
  cbv zeta. unfold onInput. cbn [setForm update state form tasks editing filter error world].
  split; [apply get_set_same |]. split; [| repeat split].
  intros k K. apply get_set_other, String.eqb_neq. congruence.
Qed.

Lemma input_changes_one_field_witness :
  form (state (onInput "title" "Buy bread" (mounted nobody)))
  = [("taskId", VNull); ("title", VStr "Buy bread"); ("description", VStr "");
     ("status", VStr "Pending"); ("deadline", VStr "")].
Proof.
  destruct (input_changes_one_field "title" "Buy bread" (mounted nobody)) as [_ _].
  reflexivity.
Defined.

(** X17.  [getIdToken] leaves the world alone, passes on a rejection of the
    session provider, and returns a token exactly when the session holds an
    id token that is a non-empty string (returned as it is) or an object
    (its [toString()] is returned). *)
Theorem getIdToken_returns_exactly (w : World) :
  snd (getIdToken w) = w /\
  (forall e, session w = Throw e -> fst (getIdToken w) = Throw e) /\
  (forall tok,
     fst (getIdToken w) = Return tok
     <-> exists s, session w = Return s /\
           ((sessionIdToken s = Some (TokenString tok) /\ tok <> "") \/
            sessionIdToken s = Some (TokenObject tok))).
Proof.
  split; [rewrite getIdToken_eq; reflexivity |].
  unfold getIdToken, andThen, fetchAuthSession, throw, ret.
  split; [intros e ->; reflexivity |].
  intros tok. destruct (session w) as [s | e]; cbn [fst].
  - destruct (sessionIdToken s) as [[str | str] |] eqn:I; cbn [lacksToken].
    + destruct (String.eqb str "") eqn:E; cbn [fst].
      * split; [discriminate |]. intros (s' & H & [[J N] | J]); injection H as <-;
          rewrite I in J; try discriminate.
        injection J as ->. apply String.eqb_eq in E. contradiction.
      * split.
        -- intros H. injection H as <-. exists s. split; [reflexivity |]. left.
           split; [exact I | apply String.eqb_neq, E].
        -- intros (s' & H & [[J N] | J]); injection H as <-; rewrite I in J;
             try discriminate. injection J as ->. reflexivity.
    + cbn [fst]. split.
      * intros H. injection H as <-. exists s. split; [reflexivity |]. right. exact I.
      * intros (s' & H & [[J N] | J]); injection H as <-; rewrite I in J;
          try discriminate. injection J as ->. reflexivity.
    + cbn [fst]. split; [discriminate |].
      intros (s' & H & [[J N] | J]); injection H as <-; rewrite I in J; discriminate.
  - split; [discriminate |]. intros (s' & H & _). discriminate.
Qed.

Lemma getIdToken_returns_exactly_witness :
  fst (getIdToken twoTasks) = Return "id-token" /\
  fst (getIdToken (mkWorld (Return (Some (mkSession (Some (mkTokens (Some (TokenString ""))))))) (listing "[]") []))
  = Throw (newError Error noIdTokenMessage).
Proof.
  destruct (getIdToken_returns_exactly twoTasks) as (_ & _ & H).
  split; [| reflexivity].
  apply H. eexists. split; [reflexivity |]. right. reflexivity.
Defined.

(** X18.  In every state the component reaches, each task of the collection
    has a [deadline] that is [null] or the ISO string of a time value in
    range: the collection never holds an invalid or non-canonical date. *)
Theorem stored_deadlines_canonical (host : Host) (w : World) (l : list action) (t : obj) :
  log w = [] ->
  In t (tasks (state (run l (mounted w)))) ->
  get "deadline" t = VNull \/
  exists tv, Z.abs tv <= maxTime /\ get "deadline" t = VStr (isoString tv).
Proof.
  intros E I.
  pose proof (run_mirrors l (mounted w) (mounted_mirrors w E)) as M.
  unfold mirrors in M. rewrite M in I.
  pose proof (lastListed_normalized (log (world (run l (mounted w))))) as F.
  rewrite Forall_forall in F. apply F, I.
Qed.

Lemma stored_deadlines_canonical_witness :
  get "deadline" report = VNull \/
  exists tv, Z.abs tv <= maxTime /\ get "deadline" report = VStr (isoString tv).
Proof.
  apply (stored_deadlines_canonical utcHost twoTasks [Mount] report eq_refl).
  vm_compute. right. left. reflexivity.
Defined.

(** *** How many requests an event issues *)

Section Bursts.
Context {host : Host}.

Lemma loadTasks_log_token (c : Ctl) (tok : string) :
  token (world c) = Return tok ->
  log (world (loadTasks c))
  = (log (world c)
       ++ [mkExchange (requestOf "/tasks" "GET" VNull tok)
             (server (world c) (log (world c)) (requestOf "/tasks" "GET" VNull tok))])%list.
Proof.
  intros T. rewrite loadTasks_world, apiCall_eq, T. reflexivity.
Qed.

Lemma loadTasks_burst (c : Ctl) :
  exists rest, log (world (loadTasks c)) = (log (world c) ++ rest)%list /\ burst rest.
Proof.
  destruct (token (world c)) as [tok | e] eqn:T.
  - rewrite (loadTasks_log_token c tok T). eexists. split; [reflexivity |].
    right. left. eexists. reflexivity.
  - rewrite loadTasks_world, apiCall_eq, T. exists []. cbn [snd].
    rewrite app_nil_r. split; [reflexivity | left; reflexivity].
Qed.

(** A mutating call, then on success some local updates and a refresh, on
    failure some local updates. *)
Lemma mutation_burst (path verb : string) (body : value) (c : Ctl)
      (onSuccess : Ctl -> Ctl) (onFailure : exn -> Ctl -> Ctl) :
  verb <> "GET" ->
  (forall c0, world (onSuccess c0) = world c0) ->
  (forall e c0, world (onFailure e c0) = world c0) ->
  exists rest,
    log (world (let (r, c2) := awaiting (apiCall path verb body) c in
                match r with
                | Return _ => loadTasks (onSuccess c2)
                | Throw e => onFailure e c2
                end))
    = (log (world c) ++ rest)%list /\ burst rest.
Proof.
  intros N S F. rewrite awaiting_apiCall.
  destruct (token (world c)) as [tok | e] eqn:T.
  - cbv zeta. destruct (settle _) as [v | e].
    + rewrite (loadTasks_log_token _ tok)
        by (rewrite S; cbn [world]; rewrite (token_session (world c)); [exact T | reflexivity]).
      rewrite S. cbn [world sent log]. rewrite <- app_assoc. cbn [app].
      eexists. split; [reflexivity |]. right. right. eexists _, _.
      split; [reflexivity |]. repeat split. exact N.
    + rewrite F. cbn [world sent log]. eexists. split; [reflexivity |].
      right. left. eexists. reflexivity.
  - rewrite F. cbn [world]. exists []. rewrite app_nil_r.
    split; [reflexivity | left; reflexivity].
Qed.

Lemma no_burst (c c' : Ctl) :
  world c' = world c ->
  exists rest, log (world c') = (log (world c) ++ rest)%list /\ burst rest.
Proof.
  intros ->. exists []. rewrite app_nil_r. split; [reflexivity | left; reflexivity].
Qed.

Lemma createTask_burst (c : Ctl) :
  exists rest, log (world (createTask c)) = (log (world c) ++ rest)%list /\ burst rest.
Proof.
  unfold createTask. destruct (parseDateForAPI _) as [d | e];
    [| apply no_burst; reflexivity].
  match goal with |- context [awaiting (apiCall ?p ?v ?b) ?c0] =>
    apply (mutation_burst p v b c0 (setForm emptyTask)
             (fun err c2 => setError (Some (shown err)) c2))
  end; [discriminate | reflexivity | reflexivity].
Qed.

Lemma updateTask_burst (taskId : value) (patch : obj) (c : Ctl) :
  exists rest,
    log (world (updateTask taskId patch c)) = (log (world c) ++ rest)%list /\ burst rest.
Proof.
  unfold updateTask. destruct (parseDateForAPI _) as [d | e];
    [| apply no_burst; reflexivity].
  match goal with |- context [awaiting (apiCall ?p ?v ?b) ?c0] =>
    apply (mutation_burst p v b c0 (fun c2 => setForm emptyTask (setEditing VNull c2))
             (fun err c2 => setError (Some (shown err)) c2))
  end; [discriminate | reflexivity | reflexivity].
Qed.

Lemma removeTask_burst (taskId : value) (c : Ctl) :
  exists rest,
    log (world (removeTask taskId c)) = (log (world c) ++ rest)%list /\ burst rest.
Proof.
  unfold removeTask.
  match goal with |- context [awaiting (apiCall ?p ?v ?b) ?c0] =>
    apply (mutation_burst p v b c0 (fun c2 => c2)
             (fun err c2 => setError (Some (shown err)) c2))
  end; [discriminate | reflexivity | reflexivity].
Qed.

End Bursts.

(** X19.  No event issues more than two requests, and there are no retries:
    an event adds to the log nothing, or one request, or a mutating request
    (not a GET) followed by [GET /tasks], the refresh after a mutation that
    succeeded. *)
Theorem requests_per_event (host : Host) (a : action) (c : Ctl) :
  exists rest,
    log (world (step a c)) = (log (world c) ++ rest)%list /\
    (rest = [] \/
     (exists x, rest = [x]) \/
     (exists x g, rest = [x; g] /\ method (request g) = "GET" /\
                  url (request g) = API_URL ++ "/tasks" /\
                  method (request x) <> "GET")).
Proof.
  destruct a; cbn [step].
  - apply loadTasks_burst.
  - apply loadTasks_burst.
  - apply no_burst. reflexivity.
  - apply no_burst. reflexivity.
  - unfold onSubmit. destruct (truthy _); [apply updateTask_burst | apply createTask_burst].
  - apply no_burst. reflexivity.
  - apply updateTask_burst.
  - apply no_burst. unfold onEdit. destruct (if truthy _ then _ else _); reflexivity.
  - unfold onDelete. destruct confirmed; [apply removeTask_burst | apply no_burst; reflexivity].
Qed.

(** Completing a task on the sample server: the PUT, then the list fetch. *)
Lemma requests_per_event_witness :
  map (fun x => method (request x))
      (log (world (step (host := utcHost) (Toggle milk) (mounted twoTasks))))
  = ["PUT"; "GET"].
Proof.
  destruct (requests_per_event utcHost (Toggle milk) (mounted twoTasks)) as (rest & _ & _).
  vm_compute. reflexivity.
Defined.

End Extra.
